(** * Verification of the request logger of vma/logger (logger.go)

    Go strings and byte slices are modelled as [list byte]; Go runes
    (int32) as [Z].  The standard-library routines the logger calls
    ([unicode/utf8], [strconv], [net.SplitHostPort], [time.Format],
    [fmt.Sprintf "%.3f"]) are embedded from their Go sources, except the
    Unicode tables behind [strconv.IsPrint] above U+00FF, which are a
    section parameter. *)

From Stdlib Require Import ZArith Zbitwise List Lia Bool.
From Stdlib Require Import Strings.Byte Strings.String.
From Stdlib Require Import Floats.SpecFloat.
Import ListNotations.
Open Scope Z_scope.

Definition bytes := list byte.

(** Go string literal as bytes. *)
Definition s2b (s : string) : bytes := list_byte_of_string s.

(** The value of a byte, and Go's [byte(x)] conversion (truncation). *)
Definition b2z (b : byte) : Z := Z.of_N (Byte.to_N b).

Definition z2b (z : Z) : byte :=
  match Byte.of_N (Z.to_N (z mod 256)) with
  | Some b => b
  | None => Byte.x00
  end.

Fixpoint bytes_eqb (a b : bytes) : bool :=
  match a, b with
  | [], [] => true
  | x :: a', y :: b' => Byte.eqb x y && bytes_eqb a' b'
  | _, _ => false
  end.

Definition is_empty (s : bytes) : bool :=
  match s with [] => true | _ => false end.

(** The two bytes escaped by [appendQuoted] unconditionally. *)
Definition dquote : byte := Byte.x22.
Definition backslash : byte := Byte.x5c.

(** ** unicode/utf8 *)
Module Utf8.

Definition RuneError : Z := 65533.   (* U+FFFD *)
Definition RuneSelf : Z := 128.
Definition MaxRune : Z := 1114111.   (* U+10FFFF *)
Definition UTFMax : nat := 4.

Definition maskx : Z := 63.          (* 0b00111111 *)
Definition mask2 : Z := 31.          (* 0b00011111 *)
Definition mask3 : Z := 15.          (* 0b00001111 *)
Definition mask4 : Z := 7.           (* 0b00000111 *)
Definition t2 : Z := 192.            (* 0b11000000 *)
Definition t3 : Z := 224.            (* 0b11100000 *)
Definition t4 : Z := 240.            (* 0b11110000 *)
Definition tx : Z := 128.            (* 0b10000000 *)
Definition locb : Z := 128.          (* 0b10000000 *)
Definition hicb : Z := 191.          (* 0b10111111 *)
Definition rune1Max : Z := 127.
Definition rune2Max : Z := 2047.
Definition rune3Max : Z := 65535.
Definition surrogateMin : Z := 55296.
Definition surrogateMax : Z := 57343.

(** An entry of Go's [first] table: ASCII ([as]), invalid ([xx]), or the
    size of the sequence with the accepted range of its second byte
    ([acceptRanges]). *)
Inductive first_entry :=
| FAs
| FXx
| FAcc (sz : nat) (lo hi : Z).

Definition first (x : Z) : first_entry :=
  if x <? 128 then FAs
  else if x <? 194 then FXx
  else if x <? 224 then FAcc 2 128 191
  else if x =? 224 then FAcc 3 160 191
  else if x <? 237 then FAcc 3 128 191
  else if x =? 237 then FAcc 3 128 159
  else if x <? 240 then FAcc 3 128 191
  else if x =? 240 then FAcc 4 144 191
  else if x <? 244 then FAcc 4 128 191
  else if x =? 244 then FAcc 4 128 143
  else FXx.

(** [utf8.DecodeRuneInString]: the rune and its width in bytes. *)
Definition DecodeRuneInString (s : bytes) : Z * nat :=
  match s with
  | [] => (RuneError, 0%nat)
  | s0 :: rest =>
    match first (b2z s0) with
    | FAs => (b2z s0, 1%nat)
    | FXx => (RuneError, 1%nat)
    | FAcc sz lo hi =>
      if Nat.ltb (List.length s) sz then (RuneError, 1%nat) else
      match rest with
      | [] => (RuneError, 1%nat)
      | s1 :: rest2 =>
        if (b2z s1 <? lo) || (hi <? b2z s1) then (RuneError, 1%nat) else
        if Nat.leb sz 2 then
          (Z.lor (Z.shiftl (Z.land (b2z s0) mask2) 6) (Z.land (b2z s1) maskx), 2%nat)
        else
        match rest2 with
        | [] => (RuneError, 1%nat)
        | s2 :: rest3 =>
          if (b2z s2 <? locb) || (hicb <? b2z s2) then (RuneError, 1%nat) else
          if Nat.leb sz 3 then
            (Z.lor (Z.lor (Z.shiftl (Z.land (b2z s0) mask3) 12)
                          (Z.shiftl (Z.land (b2z s1) maskx) 6))
                   (Z.land (b2z s2) maskx), 3%nat)
          else
          match rest3 with
          | [] => (RuneError, 1%nat)
          | s3 :: _ =>
            if (b2z s3 <? locb) || (hicb <? b2z s3) then (RuneError, 1%nat) else
            (Z.lor (Z.lor (Z.lor (Z.shiftl (Z.land (b2z s0) mask4) 18)
                                 (Z.shiftl (Z.land (b2z s1) maskx) 12))
                          (Z.shiftl (Z.land (b2z s2) maskx) 6))
                   (Z.land (b2z s3) maskx), 4%nat)
          end
        end
      end
    end
  end.

(** Go's [byte(x)]: the low eight bits. *)
Definition byteZ (x : Z) : Z := x mod 256.

Definition encode3 (r : Z) : bytes :=
  [ z2b (Z.lor t3 (byteZ (Z.shiftr r 12)));
    z2b (Z.lor tx (Z.land (byteZ (Z.shiftr r 6)) maskx));
    z2b (Z.lor tx (Z.land (byteZ r) maskx)) ].

(** [utf8.EncodeRune]: the bytes it writes into [p[:n]]. *)
Definition EncodeRune (r : Z) : bytes :=
  let i := r mod 2 ^ 32 in          (* uint32(r) *)
  if i <=? rune1Max then [z2b r]
  else if i <=? rune2Max then
    [ z2b (Z.lor t2 (byteZ (Z.shiftr r 6)));
      z2b (Z.lor tx (Z.land (byteZ r) maskx)) ]
  else if (MaxRune <? i) || ((surrogateMin <=? i) && (i <=? surrogateMax)) then
    encode3 RuneError
  else if i <=? rune3Max then encode3 r
  else
    [ z2b (Z.lor t4 (byteZ (Z.shiftr r 18)));
      z2b (Z.lor tx (Z.land (byteZ (Z.shiftr r 12)) maskx));
      z2b (Z.lor tx (Z.land (byteZ (Z.shiftr r 6)) maskx));
      z2b (Z.lor tx (Z.land (byteZ r) maskx)) ].

(** A Unicode scalar value: what a valid UTF-8 text is made of. *)
Definition ValidRune (r : Z) : bool :=
  (0 <=? r) && (r <=? MaxRune) && negb ((surrogateMin <=? r) && (r <=? surrogateMax)).

End Utf8.

(** ** strconv.IsPrint, Latin-1 fast path; the table search above U+00FF is
    the section parameter [isPrintTables]. *)
Section Quote.

Variable isPrintTables : Z -> bool.

Definition IsPrint (r : Z) : bool :=
  if r <=? 255 then
    if (32 <=? r) && (r <=? 126) then true
    else if (161 <=? r) && (r <=? 255) then negb (r =? 173)
    else false
  else isPrintTables r.

Definition lowerhex : bytes := s2b "0123456789abcdef".

Definition hexdig (n : Z) : byte := nth (Z.to_nat n) lowerhex Byte.x00.

(** The hex digits of [r] for the shifts [12, 8, 4, 0] (resp. [28 .. 0]). *)
Definition hexShifts (r : Z) (shifts : list Z) : bytes :=
  map (fun sh => hexdig (Z.land (Z.shiftr r sh) 15)) shifts.

(** The part of the loop body of [appendQuoted] after the decoding:
    what is appended for rune [r], of width [width], whose first byte is
    [s0]. *)
Definition quoteRune (s0 : byte) (r : Z) (width : nat) : bytes :=
  if Nat.eqb width 1 && (r =? Utf8.RuneError) then
    [backslash; Byte.x78; hexdig (Z.shiftr (b2z s0) 4); hexdig (Z.land (b2z s0) 15)]
  else if (r =? 34) || (r =? 92) then
    [backslash; z2b r]
  else if IsPrint r then
    Utf8.EncodeRune r
  else if r =? 7 then s2b "\a"
  else if r =? 8 then s2b "\b"
  else if r =? 12 then s2b "\f"
  else if r =? 10 then s2b "\n"
  else if r =? 13 then s2b "\r"
  else if r =? 9 then s2b "\t"
  else if r =? 11 then s2b "\v"
  else if r <? 32 then
    [backslash; Byte.x78; hexdig (Z.shiftr (b2z s0) 4); hexdig (Z.land (b2z s0) 15)]
  else if Utf8.MaxRune <? r then
    s2b "\u" ++ hexShifts 65533 [12; 8; 4; 0]
  else if r <? 65536 then
    s2b "\u" ++ hexShifts r [12; 8; 4; 0]
  else
    s2b "\U" ++ hexShifts r [28; 24; 20; 16; 12; 8; 4; 0].

(** One iteration of the loop on a non-empty [s] with first byte [s0]:
    the appended bytes and the width [s] is advanced by. *)
Definition quoteStep (s0 : byte) (s : bytes) : bytes * nat :=
  let r0 := b2z s0 in
  let '(r, width) :=
    if Utf8.RuneSelf <=? r0 then Utf8.DecodeRuneInString s else (r0, 1%nat) in
  (quoteRune s0 r width, width).

(** The loop [for width := 0; len(s) > 0; s = s[width:]], run for at most
    [fuel] iterations. *)
Fixpoint appendQuoted_loop (fuel : nat) (buf s : bytes) : bytes :=
  match fuel with
  | O => buf
  | S fuel' =>
    match s with
    | [] => buf
    | s0 :: _ =>
      let '(piece, width) := quoteStep s0 s in
      appendQuoted_loop fuel' (buf ++ piece) (skipn width s)
    end
  end.

(** [appendQuoted buf s]; [len(s)] iterations suffice (theorem [C10]). *)
Definition appendQuoted (buf s : bytes) : bytes :=
  appendQuoted_loop (List.length s) buf s.

End Quote.

(** * Reading the output back: backslash escapes *)

(** A left-to-right reading of the escaped text: a backslash opens an
    escape whose next byte is the escaped character. *)
Inductive tok := Lit (b : byte) | Esc (b : byte) | Dangling.

Fixpoint lexEscapes (l : bytes) : list tok :=
  match l with
  | [] => []
  | b :: t =>
    if Byte.eqb b backslash then
      match t with
      | [] => [Dangling]
      | c :: t' => Esc c :: lexEscapes t'
      end
    else Lit b :: lexEscapes t
  end.

Definition isQB (b : byte) : bool := Byte.eqb b dquote || Byte.eqb b backslash.

(** Number of double quotes and backslashes of an input string. *)
Definition countQB (s : bytes) : nat := List.length (filter isQB s).

(** Number of escaped double quotes and backslashes of a reading. *)
Definition countEscQB (ts : list tok) : nat :=
  List.length (filter (fun t => match t with Esc b => isQB b | _ => false end) ts).

(** No bare double quote or backslash and no unfinished escape. *)
Definition GoodToks (ts : list tok) : Prop :=
  Forall (fun t => t <> Dangling /\ t <> Lit dquote /\ t <> Lit backslash) ts.

Definition NoQB (q : bytes) : Prop := Forall (fun b => isQB b = false) q.

Inductive PieceShape : bytes -> Prop :=
| PS_plain q : NoQB q -> PieceShape q
| PS_esc c q : NoQB q -> PieceShape (backslash :: c :: q).

(** A classification in which no rune above U+00FF is printable. *)
Definition latin1Tables : Z -> bool := fun _ => false.

(** ** Decimal digits (strconv.Itoa and the digit loops of time and fmt) *)

Definition digitByte (d : Z) : byte := z2b (48 + d).

(** The decimal digits of [n >= 0], most significant first; [fuel] bounds
    the number of digits. *)
Fixpoint decDigits (fuel : nat) (n : Z) : bytes :=
  match fuel with
  | O => []
  | S f => if n <? 10 then [digitByte n] else decDigits f (n / 10) ++ [digitByte (n mod 10)]
  end.

(** A number below [2 ^ k] has at most [k] decimal digits. *)
Definition decimal (n : Z) : bytes := decDigits (S (Z.to_nat (Z.log2 n))) n.

(** [strconv.Itoa] ([FormatInt(int64(i), 10)]). *)
Definition Itoa (i : Z) : bytes :=
  if i <? 0 then Byte.x2d :: decimal (- i) else decimal i.

(** ** time.Time.Format for the layout ["02/Jan/2006:15:04:05 -0700"] *)

(** The fields [Format] reads from a [time.Time]: its date and clock in
    its location, and the location's offset in seconds east of UTC. *)
Record Time := mkTime {
  year : Z; month : Z; day : Z; hour : Z; minute : Z; second : Z; offset : Z }.

(** [time.appendInt]: [x] in decimal, zero-padded to [width] digits. *)
Definition appendInt (b : bytes) (x : Z) (width : nat) : bytes :=
  let sign := if x <? 0 then [Byte.x2d] else [] in
  let ds := decimal (Z.abs x) in
  b ++ sign ++ repeat Byte.x30 (width - List.length ds) ++ ds.

Definition shortMonthNames : list string :=
  ["Jan"; "Feb"; "Mar"; "Apr"; "May"; "Jun"; "Jul"; "Aug"; "Sep"; "Oct"; "Nov"; "Dec"]%string.

(** [stdNumTZ] ("-0700") *)
Definition appendNumTZ (b : bytes) (off : Z) : bytes :=
  let zone := Z.quot off 60 in
  let '(b, zone) := if zone <? 0 then (b ++ [Byte.x2d], - zone) else (b ++ [Byte.x2b], zone) in
  let b := appendInt b (Z.quot zone 60) 2 in
  appendInt b (Z.rem zone 60) 2.

(** [ts.Format("02/Jan/2006:15:04:05 -0700")]: the layout's chunks in order. *)
Definition formatCommonLogTime (t : Time) : bytes :=
  let b := appendInt [] (day t) 2 in
  let b := b ++ s2b "/" in
  let b := b ++ s2b (nth (Z.to_nat (month t - 1)) shortMonthNames "???"%string) in
  let b := b ++ s2b "/" in
  let b := appendInt b (year t) 4 in
  let b := b ++ s2b ":" in
  let b := appendInt b (hour t) 2 in
  let b := b ++ s2b ":" in
  let b := appendInt b (minute t) 2 in
  let b := b ++ s2b ":" in
  let b := appendInt b (second t) 2 in
  let b := b ++ s2b " " in
  appendNumTZ b (offset t).

(** ** float64 and fmt.Sprintf("%.3f") *)

Definition float64 := spec_float.

(** [float64(n)] for an integer [n]: rounding to nearest, ties to even. *)
Definition float64_of_Z (n : Z) : float64 := binary_normalize 53 1024 n 0 false.

Definition div64 (x y : float64) : float64 := SFdiv 53 1024 x y.

(** [a / b] rounded to the nearest integer, ties to even ([b > 0]). *)
Definition roundHalfEven (a b : Z) : Z :=
  let q := a / b in
  let r := a mod b in
  if 2 * r <? b then q
  else if b <? 2 * r then q + 1
  else if Z.even q then q else q + 1.

(** The exact value [m * 2 ^ e] with 3 decimals: as in strconv's [bigFtoa]
    for [fmt = 'f', prec = 3], the exact decimal expansion rounded half to
    even at the third decimal, printed as integer part, dot, 3 digits. *)
Definition fixed3 (m e : Z) : bytes :=
  let n := if 0 <=? e then m * 2 ^ e * 1000 else roundHalfEven (m * 1000) (2 ^ (- e)) in
  let f := n mod 1000 in
  decimal (n / 1000) ++ [Byte.x2e; digitByte (f / 100); digitByte (f / 10 mod 10); digitByte (f mod 10)].

(** [fmt.Sprintf("%.3f", x)]: a minus sign for a negative sign bit, [+Inf]
    and [-Inf] for the infinities, [NaN]. *)
Definition sprintf3f (x : float64) : bytes :=
  match x with
  | S754_zero s => (if s then [Byte.x2d] else []) ++ s2b "0.000"
  | S754_infinity s => if s then s2b "-Inf" else s2b "+Inf"
  | S754_nan => s2b "NaN"
  | S754_finite s m e => (if s then [Byte.x2d] else []) ++ fixed3 (Zpos m) e
  end.

(** [prettyDuration dur], [dur] given by [dur.Nanoseconds()]. *)
Definition prettyDuration (ns : Z) : bytes :=
  let ms := div64 (float64_of_Z ns) (float64_of_Z 1000000) in
  sprintf3f ms ++ s2b "ms".


(** ** net.SplitHostPort *)

(** [bytealg.IndexByteString]: first index of [c], or -1. *)
Fixpoint indexByte (s : bytes) (c : byte) : Z :=
  match s with
  | [] => -1
  | b :: t => if Byte.eqb b c then 0 else let i := indexByte t c in if i <? 0 then -1 else i + 1
  end.

(** [last]: last index of [c], or -1. *)
Fixpoint lastIndexByte (s : bytes) (c : byte) : Z :=
  match s with
  | [] => -1
  | b :: t => let i := lastIndexByte t c in
              if 0 <=? i then i + 1 else if Byte.eqb b c then 0 else -1
  end.

(** [s[i:j]] and [s[i:]] (in range). *)
Definition slice (s : bytes) (i j : Z) : bytes := firstn (Z.to_nat (j - i)) (skipn (Z.to_nat i) s).
Definition sliceFrom (s : bytes) (i : Z) : bytes := skipn (Z.to_nat i) s.

Definition colon : byte := Byte.x3a.
Definition lbrack : byte := Byte.x5b.
Definition rbrack : byte := Byte.x5d.

(** [net.SplitHostPort]: [Some (host, port)], or [None] for an error. *)
Definition SplitHostPort (hostport : bytes) : option (bytes * bytes) :=
  let i := lastIndexByte hostport colon in
  if i <? 0 then None else
  let hk :=
    if Byte.eqb (nth 0 hostport Byte.x00) lbrack then
      let end_ := indexByte hostport rbrack in
      if end_ <? 0 then None
      else if end_ + 1 =? Z.of_nat (List.length hostport) then None
      else if end_ + 1 =? i then Some (slice hostport 1 end_, 1, end_ + 1)
      else None
    else
      let host := slice hostport 0 i in
      if 0 <=? indexByte host colon then None else Some (host, 0, 0)
  in
  match hk with
  | None => None
  | Some (host, j, k) =>
    if 0 <=? indexByte (sliceFrom hostport j) lbrack then None
    else if 0 <=? indexByte (sliceFrom hostport k) rbrack then None
    else Some (host, sliceFrom hostport (i + 1))
  end.

(** ** net/url.URL and net/http.Request *)

(** [url.Userinfo], through [Username()]. *)
Record Userinfo := mkUserinfo { Username : bytes }.

(** The fields of [url.URL] that [RequestURI()] and the logger read;
    [EscapedPath] stands for the value of [u.EscapedPath()]. *)
Record URL := mkURL {
  Scheme : bytes; Opaque : bytes; User : option Userinfo;
  EscapedPath : bytes; RawQuery : bytes; ForceQuery : bool }.

Definition hasPrefix (s p : bytes) : bool := bytes_eqb (firstn (List.length p) s) p.

(** [url.URL.RequestURI] (method of [*URL]). *)
Definition URL_RequestURI (u : URL) : bytes :=
  let result := Opaque u in
  let result :=
    if is_empty result then
      let result := EscapedPath u in
      if is_empty result then s2b "/" else result
    else if hasPrefix result (s2b "//") then Scheme u ++ s2b ":" ++ result
    else result in
  if ForceQuery u || negb (is_empty (RawQuery u)) then result ++ s2b "?" ++ RawQuery u
  else result.

(** An [http.Header] (a map from canonical keys to values) as an
    association list with distinct keys. *)
Definition Header := list (bytes * list bytes).

(** [Header.Get] for a canonical key. *)
Definition Header_Get (h : Header) (key : bytes) : bytes :=
  match find (fun kv => bytes_eqb (fst kv) key) h with
  | Some (_, v :: _) => v
  | _ => []
  end.

(** The fields of [http.Request] the logger reads. *)
Record Request := mkRequest {
  Method : bytes; URL_ : URL; Proto : bytes; ProtoMajor : Z;
  Header_ : Header; Host : bytes; RemoteAddr : bytes; RequestURI : bytes }.

Definition Referer (r : Request) : bytes := Header_Get (Header_ r) (s2b "Referer").
Definition UserAgent (r : Request) : bytes := Header_Get (Header_ r) (s2b "User-Agent").

(** ** buildCommonLogLine, writeCommonLog, writeCombinedLog *)

Section Logger.
Variable isPrintTables : Z -> bool.

(** [username] of [buildCommonLogLine]. *)
Definition logUsername (req : Request) : bytes :=
  match User (URL_ req) with
  | Some u => let name := Username u in if is_empty name then s2b "-" else name
  | None => s2b "-"
  end.

(** [host] of [buildCommonLogLine]. *)
Definition logHost (req : Request) : bytes :=
  match SplitHostPort (RemoteAddr req) with
  | Some (host, _) => host
  | None => RemoteAddr req
  end.

(** [uri] of [buildCommonLogLine], as it is passed to [appendQuoted]. *)
Definition logURI (req : Request) : bytes :=
  let uri := RequestURI req in
  let uri := if (ProtoMajor req =? 2) && bytes_eqb (Method req) (s2b "CONNECT")
             then Host req else uri in
  if is_empty uri then URL_RequestURI (URL_ req) else uri.

Definition buildCommonLogLine (req : Request) (ts : Time) (status size delay : Z) : bytes :=
  let username := logUsername req in
  let host := logHost req in
  let uri := logURI req in
  let buf := [] in
  let buf := buf ++ host in
  let buf := buf ++ s2b " - " in
  let buf := buf ++ username in
  let buf := buf ++ s2b " [" in
  let buf := buf ++ formatCommonLogTime ts in
  let buf := buf ++ s2b "] " ++ [dquote] in
  let buf := buf ++ Method req in
  let buf := buf ++ s2b " " in
  let buf := appendQuoted isPrintTables buf uri in
  let buf := buf ++ s2b " " in
  let buf := buf ++ Proto req in
  let buf := buf ++ [dquote] ++ s2b " " in
  let buf := buf ++ Itoa status in
  let buf := buf ++ s2b " " in
  let buf := buf ++ Itoa size in
  let buf := buf ++ s2b " " in
  buf ++ prettyDuration delay.

Definition newline : byte := Byte.x0a.

(** The writers take the sink's contents so far and return them with the
    line written. *)
Definition writeCommonLog (w : bytes) (req : Request) (ts : Time) (status size delay : Z) : bytes :=
  let buf := buildCommonLogLine req ts status size delay in
  let buf := buf ++ [newline] in
  w ++ buf.

Definition writeCombinedLog (w : bytes) (req : Request) (ts : Time) (status size delay : Z) : bytes :=
  let buf := buildCommonLogLine req ts status size delay in
  let buf := buf ++ s2b " " ++ [dquote] in
  let buf := appendQuoted isPrintTables buf (Referer req) in
  let buf := buf ++ [dquote] ++ s2b " " ++ [dquote] in
  let buf := appendQuoted isPrintTables buf (UserAgent req) in
  let buf := buf ++ [dquote; newline] in
  w ++ buf.

End Logger.

(** ** Shapes and example requests *)

Definition isDigit (b : byte) : bool := (48 <=? b2z b) && (b2z b <=? 57).

(** The shape of a [%.3f] rendering: an optional minus sign, a non-empty
    integer part, a dot, three decimals. *)
Definition Fixed3Shape (out : bytes) : Prop :=
  exists (neg : bool) (ip fp : bytes),
    out = (if neg then [Byte.x2d] else []) ++ ip ++ [Byte.x2e] ++ fp /\
    ip <> [] /\ List.length fp = 3%nat /\
    Forall (fun b => isDigit b = true) ip /\ Forall (fun b => isDigit b = true) fp.

Definition hasKey (h : Header) (key : bytes) : bool := existsb (fun kv => bytes_eqb (fst kv) key) h.

Definition connectReq : Request :=
  mkRequest (s2b "CONNECT") (mkURL [] [] None (s2b "/from-url") [] false) (s2b "HTTP/2.0") 2
    [] [] (s2b "10.0.0.1:4000") (s2b "/orig").

Definition connectTs := mkTime 2017 1 2 20 7 27 3600.

Definition exConnectReq : Request :=
  mkRequest (s2b "CONNECT") (mkURL [] [] None (s2b "/from-url") [] false) (s2b "HTTP/2.0") 2
    [] (s2b "example.com:443") (s2b "10.0.0.1:4000") (s2b "/orig").

(** ** Notions used by the further properties *)

(** Printable ASCII: the bytes 0x20 to 0x7e. *)
Definition asciiPrintable (b : byte) : Prop := 32 <= b2z b <= 126.

(** The value of a run of decimal digits, most significant first. *)
Definition digitsValue (l : bytes) : Z :=
  fold_left (fun acc b => acc * 10 + (b2z b - 48)) l 0.

Definition space : byte := Byte.x20.

(** The digits [time.appendInt] writes for [x >= 0] and width [k]. *)
Definition padded (k : nat) (x : Z) : bytes := repeat Byte.x30 (k - List.length (decimal x)) ++ decimal x.

(** A byte that is neither a newline nor a double quote or backslash. *)
Definition plainByte (b : byte) : Prop := b <> newline /\ isQB b = false.

(** The number of occurrences of [c] in [l]. *)
Definition countByte (c : byte) (l : bytes) : nat := List.length (filter (fun b => Byte.eqb b c) l).

(** The number of bare (unescaped) double quotes of a reading. *)
Definition bareQuotes (ts : list tok) : nat :=
  List.length (filter (fun t => match t with Lit b => Byte.eqb b dquote | _ => false end) ts).

(** A request from a peer without a port (a Unix socket). *)
Definition socketReq : Request :=
  mkRequest (s2b "GET") (mkURL [] [] None (s2b "/") [] false) (s2b "HTTP/1.1") 1
    [] (s2b "example.com") (s2b "@") (s2b "/").

(** * Arithmetic of bytes and bit operations *)

Lemma b2z_range (b : byte) : 0 <= b2z b < 256.
Proof.
  unfold b2z. pose proof (Byte.to_N_bounded b). lia.
Qed.

Lemma z2b_b2z (b : byte) : z2b (b2z b) = b.
Proof. destruct b; reflexivity. Qed.

Lemma b2z_z2b (z : Z) : b2z (z2b z) = z mod 256.
Proof.
  unfold z2b, b2z. pose proof (Z.mod_pos_bound z 256 ltac:(lia)) as Hm.
  destruct (Byte.of_N (Z.to_N (z mod 256))) as [b|] eqn:E.
  - apply Byte.to_of_N in E. rewrite E. lia.
  - apply Byte.of_N_None_iff in E. lia.
Qed.

Lemma b2z_inj (a b : byte) : b2z a = b2z b -> a = b.
Proof. intros H. rewrite <- (z2b_b2z a), <- (z2b_b2z b), H. reflexivity. Qed.

Lemma land_mul_pow2_low a b k : 0 <= k -> 0 <= b < 2 ^ k -> Z.land (a * 2 ^ k) b = 0.
Proof.
  intros Hk Hb. apply Z.bits_inj'. intros n Hn. rewrite Z.land_spec, Z.bits_0.
  destruct (Z.lt_ge_cases n k) as [Hlt | Hge].
  - rewrite Z.mul_pow2_bits_low by lia. reflexivity.
  - destruct (Z.eq_dec b 0) as [->|Hb0]; [rewrite Z.bits_0; apply andb_false_r|].
    rewrite (Z.bits_above_log2 b n); [apply andb_false_r | lia |].
    apply Z.lt_le_trans with k; [apply Z.log2_lt_pow2; lia | lia].
Qed.

Lemma lor_disj a b k : 0 <= k -> 0 <= b < 2 ^ k -> Z.lor (a * 2 ^ k) b = a * 2 ^ k + b.
Proof.
  intros Hk Hb. rewrite <- Z.add_lor_land, land_mul_pow2_low by lia. lia.
Qed.

(** [c | y] is [c + y] when the low [k] bits of [c] are clear and [y < 2^k]. *)
Lemma lor_const c y k : 0 <= k -> c mod 2 ^ k = 0 -> 0 <= y < 2 ^ k -> Z.lor c y = c + y.
Proof.
  intros Hk Hc Hy. assert (Hp : 2 ^ k > 0) by (apply Z.lt_gt, Z.pow_pos_nonneg; lia).
  rewrite (Z.div_mod c (2 ^ k)), Hc, Z.add_0_r by lia.
  rewrite Z.mul_comm. apply lor_disj; lia.
Qed.

Lemma lor_mul_pow2 a b k : 0 <= k -> Z.lor (a * 2 ^ k) (b * 2 ^ k) = Z.lor a b * 2 ^ k.
Proof.
  intros Hk. rewrite <- !Z.shiftl_mul_pow2 by lia. symmetry. apply Z.shiftl_lor.
Qed.

Lemma lor2 a b : 0 <= b < 64 -> Z.lor (Z.shiftl a 6) b = a * 64 + b.
Proof. intros. rewrite Z.shiftl_mul_pow2 by lia. apply (lor_disj a b 6); lia. Qed.

Lemma lor3 a b c : 0 <= b < 64 -> 0 <= c < 64 ->
  Z.lor (Z.lor (Z.shiftl a 12) (Z.shiftl b 6)) c = a * 4096 + b * 64 + c.
Proof.
  intros. rewrite !Z.shiftl_mul_pow2 by lia.
  replace (a * 2 ^ 12) with ((a * 2 ^ 6) * 2 ^ 6) by (rewrite <- Z.mul_assoc; reflexivity).
  rewrite lor_mul_pow2, lor_disj, lor_disj by lia. lia.
Qed.

Lemma lor4 a b c d : 0 <= b < 64 -> 0 <= c < 64 -> 0 <= d < 64 ->
  Z.lor (Z.lor (Z.lor (Z.shiftl a 18) (Z.shiftl b 12)) (Z.shiftl c 6)) d
  = a * 262144 + b * 4096 + c * 64 + d.
Proof.
  intros. rewrite !Z.shiftl_mul_pow2 by lia.
  replace (a * 2 ^ 18) with ((a * 2 ^ 6) * 2 ^ 6 * 2 ^ 6) by (rewrite <- !Z.mul_assoc; reflexivity).
  replace (b * 2 ^ 12) with ((b * 2 ^ 6) * 2 ^ 6) by (rewrite <- Z.mul_assoc; reflexivity).
  rewrite !lor_mul_pow2, !lor_disj by lia. lia.
Qed.

Lemma land_mask x k m : m = Z.ones k -> 0 <= k -> Z.land x m = x mod 2 ^ k.
Proof. intros -> Hk. apply Z.land_ones; exact Hk. Qed.

Ltac bits_to_arith :=
  repeat first
    [ rewrite (land_mask _ 6 Utf8.maskx) by (first [reflexivity | lia])
    | rewrite (land_mask _ 5 Utf8.mask2) by (first [reflexivity | lia])
    | rewrite (land_mask _ 4 Utf8.mask3) by (first [reflexivity | lia])
    | rewrite (land_mask _ 3 Utf8.mask4) by (first [reflexivity | lia])
    | rewrite Z.shiftr_div_pow2 by lia ].

Lemma ValidRune_iff r :
  Utf8.ValidRune r = true <-> 0 <= r <= Utf8.MaxRune /\ ~ (Utf8.surrogateMin <= r <= Utf8.surrogateMax).
Proof.
  unfold Utf8.ValidRune, Utf8.MaxRune, Utf8.surrogateMin, Utf8.surrogateMax.
  repeat match goal with |- context [?a <=? ?b] => destruct (Z.leb_spec a b) end;
    simpl; split; intros; try lia; discriminate.
Qed.

Ltac solve_first_case :=
  first [ split; [reflexivity | lia]
        | left; split; [reflexivity | lia]
        | right; solve_first_case ].

Lemma first_cases x : 128 <= x < 256 ->
  (Utf8.first x = Utf8.FXx /\ (x < 194 \/ 245 <= x)) \/
  (Utf8.first x = Utf8.FAcc 2 128 191 /\ 194 <= x < 224) \/
  (Utf8.first x = Utf8.FAcc 3 160 191 /\ x = 224) \/
  (Utf8.first x = Utf8.FAcc 3 128 191 /\ (225 <= x < 237 \/ 238 <= x < 240)) \/
  (Utf8.first x = Utf8.FAcc 3 128 159 /\ x = 237) \/
  (Utf8.first x = Utf8.FAcc 4 144 191 /\ x = 240) \/
  (Utf8.first x = Utf8.FAcc 4 128 191 /\ 241 <= x < 244) \/
  (Utf8.first x = Utf8.FAcc 4 128 143 /\ x = 244).
Proof.
  intros Hx. unfold Utf8.first.
  repeat match goal with
  | |- context [?a <? ?b] => destruct (Z.ltb_spec a b)
  | |- context [?a =? ?b] => destruct (Z.eqb_spec a b)
  end; try lia; solve_first_case.
Qed.
Opaque Z.shiftl.
(** Decoding a sequence starting with a non-ASCII byte either fails with
    width 1, or yields a scalar value whose encoding is exactly the bytes
    consumed, all of them non-ASCII. *)
Lemma decode_spec s0 t r w : 128 <= b2z s0 -> Utf8.DecodeRuneInString (s0 :: t) = (r, w) ->
  (w = 1%nat /\ r = Utf8.RuneError) \/
  ((2 <= w)%nat /\ (w <= List.length (s0 :: t))%nat /\ Utf8.ValidRune r = true /\ 128 <= r /\
   Forall (fun b => 128 <= b2z b) (firstn w (s0 :: t)) /\ Utf8.EncodeRune r = firstn w (s0 :: t)).
Proof.
  intros H D. pose proof (b2z_range s0) as R0. unfold Utf8.DecodeRuneInString in D.
  destruct (first_cases (b2z s0) ltac:(lia)) as [[F C]|[[F C]|[[F C]|[[F C]|[[F C]|[[F C]|[[F C]|[F C]]]]]]]];
  rewrite F in D;
  repeat match type of D with
  | context [match ?l with [] => _ | _ :: _ => _ end] => destruct l
  | context [if ?c then _ else _] => let E := fresh "E" in destruct c eqn:E; try discriminate E
  end; injection D; intros; subst; try (left; split; reflexivity).
  all: right.
  all: repeat match goal with H : (_ || _) = false |- _ => apply orb_false_iff in H; destruct H end;
       rewrite ?Z.ltb_ge in *; unfold Utf8.locb, Utf8.hicb in *.
  all: repeat match goal with b : Byte.byte |- _ => 
         lazymatch goal with _ : 0 <= b2z b < 256 |- _ => fail | _ => pose proof (b2z_range b) end end.
  all: bits_to_arith; rewrite ?lor2, ?lor3, ?lor4 by (apply Z.mod_pos_bound; lia).
  all: match goal with |- context [Utf8.EncodeRune ?e] => remember e as r eqn:Er end.
  all: repeat match goal with H : context [2 ^ ?n] |- _ =>
         let v := eval compute in (2 ^ n) in change (2 ^ n) with v in H end.
  all: assert (HR : 0 <= r <= Utf8.MaxRune) by (unfold Utf8.MaxRune; Z.div_mod_to_equations; lia).
  all: repeat split.
  all: lazymatch goal with
  | |- Utf8.ValidRune _ = true =>
      apply ValidRune_iff; unfold Utf8.MaxRune, Utf8.surrogateMin, Utf8.surrogateMax; first [Z.div_mod_to_equations; lia | match goal with |- ?g => idtac "FAILV" g end; try (match goal with H : ?T |- _ => idtac H ":" T; fail end)]
  | |- Forall _ _ => cbn [firstn]; repeat constructor; lia
  | |- Utf8.EncodeRune _ = _ => idtac
  | |- _ => cbn [List.length firstn]; Z.div_mod_to_equations; lia
  end.
  all: unfold Utf8.EncodeRune; rewrite (Z.mod_small r) by (change (2 ^ 32) with 4294967296; unfold Utf8.MaxRune in *; lia).
  all: unfold Utf8.rune1Max, Utf8.rune2Max, Utf8.rune3Max, Utf8.MaxRune, Utf8.surrogateMin, Utf8.surrogateMax in *.
  all: repeat match goal with
    | |- context [?a <=? ?b] => destruct (Z.leb_spec a b)
    | |- context [?a <? ?b] => destruct (Z.ltb_spec a b) end; cbn [orb andb];
    try (exfalso; Z.div_mod_to_equations; lia).
  all: unfold Utf8.encode3; cbn [firstn]; repeat f_equal; apply b2z_inj; rewrite b2z_z2b; unfold Utf8.byteZ.
  all: bits_to_arith.
  all: first [ rewrite (lor_const _ _ 6) by (first [lia | reflexivity | Z.div_mod_to_equations; lia])
             | rewrite (lor_const _ _ 4) by (first [lia | reflexivity | Z.div_mod_to_equations; lia])
             | rewrite (lor_const _ _ 3) by (first [lia | reflexivity | Z.div_mod_to_equations; lia]) ].
  all: unfold Utf8.t2, Utf8.t3, Utf8.t4, Utf8.tx; Z.div_mod_to_equations; lia.
Qed.

Ltac first_case_split v :=
  destruct (first_cases v ltac:(Z.div_mod_to_equations; lia))
    as [[F C]|[[F C]|[[F C]|[[F C]|[[F C]|[[F C]|[[F C]|[F C]]]]]]]];
  rewrite F; try (exfalso; Z.div_mod_to_equations; lia).

(** Encoding a non-ASCII scalar value and decoding it back gives the value
    and the length of its encoding. *)
Lemma encode_decode r rest : Utf8.ValidRune r = true -> 128 <= r ->
  Utf8.DecodeRuneInString (Utf8.EncodeRune r ++ rest) = (r, List.length (Utf8.EncodeRune r)).
Proof.
  intros HV H128. apply ValidRune_iff in HV.
  unfold Utf8.MaxRune, Utf8.surrogateMin, Utf8.surrogateMax in HV.
  unfold Utf8.EncodeRune. rewrite (Z.mod_small r) by (change (2 ^ 32) with 4294967296; lia).
  unfold Utf8.rune1Max, Utf8.rune2Max, Utf8.rune3Max, Utf8.MaxRune, Utf8.surrogateMin, Utf8.surrogateMax.
  repeat match goal with
    | |- context [?a <=? ?b] => destruct (Z.leb_spec a b)
    | |- context [?a <? ?b] => destruct (Z.ltb_spec a b) end; cbn [orb andb];
    try (exfalso; lia).
  all: unfold Utf8.encode3; cbn [app List.length].
  all: repeat match goal with |- context [z2b ?e] =>
         let b := fresh "b" in let Hb := fresh "Hb" in
         remember (z2b e) as b eqn:Hb;
         apply (f_equal b2z) in Hb; rewrite b2z_z2b in Hb; unfold Utf8.byteZ in Hb;
         revert Hb; bits_to_arith; intro Hb;
         first [ rewrite (lor_const _ _ 6) in Hb by (first [lia | reflexivity | Z.div_mod_to_equations; lia])
               | rewrite (lor_const _ _ 4) in Hb by (first [lia | reflexivity | Z.div_mod_to_equations; lia])
               | rewrite (lor_const _ _ 3) in Hb by (first [lia | reflexivity | Z.div_mod_to_equations; lia]) ];
         unfold Utf8.t2, Utf8.t3, Utf8.t4, Utf8.tx in Hb
       end.
  all: unfold Utf8.DecodeRuneInString.
  all: repeat match goal with H : context [2 ^ ?n] |- _ =>
         let v := eval compute in (2 ^ n) in change (2 ^ n) with v in H end.
  all: repeat match goal with H : b2z ?b = _ |- context [b2z ?b] => rewrite H end.
  all: match goal with |- context [Utf8.first ?v] => first_case_split v end.
  all: unfold Utf8.locb, Utf8.hicb.
  all: repeat match goal with
    | |- context [?a <? ?b] => destruct (Z.ltb_spec a b) end; cbn [orb andb];
    try (exfalso; Z.div_mod_to_equations; lia).
  all: cbn [List.length Nat.ltb Nat.leb].
  all: f_equal; bits_to_arith; rewrite ?lor2, ?lor3, ?lor4 by (apply Z.mod_pos_bound; lia).
  all: repeat match goal with |- context [2 ^ ?n] =>
         let v := eval compute in (2 ^ n) in change (2 ^ n) with v end.
  all: Z.div_mod_to_equations; lia.
Qed.
Transparent Z.shiftl.

(** * Properties of the escaping loop *)

Lemma lex_plain q r : NoQB q -> lexEscapes (q ++ r) = map Lit q ++ lexEscapes r.
Proof.
  induction 1 as [|b q Hb Hq IH]; [reflexivity|].
  cbn [app lexEscapes map]. unfold isQB in Hb. apply orb_false_iff in Hb as [_ Hb].
  rewrite Hb, IH. reflexivity.
Qed.

Lemma lex_plain_nil q : NoQB q -> lexEscapes q = map Lit q.
Proof.
  intros Hq. pose proof (lex_plain q [] Hq) as E. rewrite app_nil_r in E.
  rewrite E, app_nil_r. reflexivity.
Qed.

Lemma lex_piece p r : PieceShape p -> lexEscapes (p ++ r) = lexEscapes p ++ lexEscapes r.
Proof.
  intros [q Hq | c q Hq].
  - rewrite (lex_plain q r Hq), (lex_plain_nil q Hq). reflexivity.
  - cbn [app lexEscapes]. replace (Byte.eqb backslash backslash) with true by reflexivity.
    rewrite (lex_plain q r Hq), (lex_plain_nil q Hq). reflexivity.
Qed.

Lemma countQB_app a b : countQB (a ++ b) = (countQB a + countQB b)%nat.
Proof. unfold countQB. rewrite filter_app, length_app. reflexivity. Qed.

Lemma countEscQB_app a b : countEscQB (a ++ b) = (countEscQB a + countEscQB b)%nat.
Proof. unfold countEscQB. rewrite filter_app, length_app. reflexivity. Qed.

Lemma countEscQB_map_Lit q : countEscQB (map Lit q) = 0%nat.
Proof. induction q; [reflexivity | exact IHq]. Qed.

Lemma GoodToks_map_Lit q : NoQB q -> GoodToks (map Lit q).
Proof.
  induction 1 as [|b q Hb Hq IH]; constructor; [|exact IH].
  unfold isQB in Hb. apply orb_false_iff in Hb as [H1 H2].
  repeat split; try discriminate; intros E; injection E as ->; discriminate.
Qed.

Lemma hexdig_noQB n : isQB (hexdig n) = false.
Proof.
  unfold hexdig. destruct (nth_in_or_default (Z.to_nat n) lowerhex Byte.x00) as [Hin|Hd].
  - remember (nth (Z.to_nat n) lowerhex Byte.x00) as d. clear Heqd.
    cbn in Hin. repeat (destruct Hin as [<-|Hin]; [reflexivity|]). destruct Hin.
  - rewrite Hd. reflexivity.
Qed.

Lemma hexShifts_noQB r l : NoQB (hexShifts r l).
Proof.
  unfold hexShifts, NoQB. apply Forall_map, Forall_forall. intros. apply hexdig_noQB.
Qed.

Lemma piece_good p : PieceShape p -> GoodToks (lexEscapes p).
Proof.
  intros [q Hq | c q Hq].
  - rewrite lex_plain_nil by exact Hq. apply GoodToks_map_Lit, Hq.
  - cbn [lexEscapes]. replace (Byte.eqb backslash backslash) with true by reflexivity.
    rewrite lex_plain_nil by exact Hq. constructor; [|apply GoodToks_map_Lit, Hq].
    repeat split; discriminate.
Qed.

Lemma isQB_b2z b : isQB b = (b2z b =? 34) || (b2z b =? 92).
Proof. destruct b; reflexivity. Qed.

Lemma lor_bit7 c y : Z.testbit c 7 = true -> 128 <= (Z.lor c y) mod 256.
Proof.
  intros Hc. pose proof (Z.mod_pos_bound (Z.lor c y) 256 ltac:(lia)) as Hb.
  assert (Ht : Z.testbit ((Z.lor c y) mod 256) 7 = true).
  { change 256 with (2 ^ 8). rewrite Z.mod_pow2_bits_low by lia.
    rewrite Z.lor_spec, Hc. reflexivity. }
  destruct (Z.lt_ge_cases ((Z.lor c y) mod 256) 128) as [Hlt|]; [|assumption].
  destruct (Z.eq_dec ((Z.lor c y) mod 256) 0) as [E|Hn0].
  - rewrite E in Ht. discriminate.
  - rewrite Z.bits_above_log2 in Ht; [discriminate | lia |].
    apply Z.log2_lt_pow2; [lia | exact Hlt].
Qed.

Lemma noQB_ge128 b : 128 <= b2z b -> isQB b = false.
Proof.
  intros H. rewrite isQB_b2z. apply orb_false_iff. split; apply Z.eqb_neq; lia.
Qed.

Lemma noQB_lor c y : Z.testbit c 7 = true -> isQB (z2b (Z.lor c y)) = false.
Proof. intros Hc. apply noQB_ge128. rewrite b2z_z2b. apply lor_bit7, Hc. Qed.

Lemma EncodeRune_noQB r : 0 <= r <= Utf8.MaxRune -> r <> 34 -> r <> 92 ->
  NoQB (Utf8.EncodeRune r).
Proof.
  intros Hr H34 H92. unfold Utf8.EncodeRune, Utf8.encode3.
  rewrite (Z.mod_small r) by (change (2 ^ 32) with 4294967296; unfold Utf8.MaxRune in Hr; lia).
  destruct (r <=? Utf8.rune1Max) eqn:E1.
  - apply Z.leb_le in E1. unfold Utf8.rune1Max in E1. constructor; [|constructor].
    rewrite isQB_b2z, b2z_z2b, Z.mod_small by lia. apply orb_false_iff; split; apply Z.eqb_neq; lia.
  - repeat match goal with |- context [if ?c then _ else _] => destruct c end;
      repeat constructor; apply noQB_lor; reflexivity.
Qed.

Lemma EncodeRune_len r : (1 <= List.length (Utf8.EncodeRune r) <= 4)%nat.
Proof.
  unfold Utf8.EncodeRune, Utf8.encode3.
  repeat match goal with |- context [if ?c then _ else _] => destruct c end; cbn; lia.
Qed.

Lemma quoteRune_shape isPrintTables s0 r w : 0 <= r <= Utf8.MaxRune ->
  PieceShape (quoteRune isPrintTables s0 r w).
Proof.
  intros Hr. unfold quoteRune.
  destruct (Nat.eqb w 1 && (r =? Utf8.RuneError)).
  { apply (PS_esc _ [_; _]). repeat constructor; apply hexdig_noQB. }
  destruct ((r =? 34) || (r =? 92)) eqn:Eq.
  { apply (PS_esc _ []). constructor. }
  apply orb_false_iff in Eq as [E34 E92]. apply Z.eqb_neq in E34, E92.
  destruct (IsPrint isPrintTables r).
  { apply PS_plain, EncodeRune_noQB; assumption. }
  repeat match goal with
  | |- context [if ?c then _ else _] => destruct c
  end;
  first [ exact (PS_esc _ [] (Forall_nil _))
        | exact (PS_esc _ _ (hexShifts_noQB _ _))
        | apply (PS_esc _ [_; _]); repeat constructor; apply hexdig_noQB ].
Qed.

Lemma count_plain q : NoQB q -> countEscQB (lexEscapes q) = 0%nat.
Proof. intros Hq. rewrite lex_plain_nil by exact Hq. apply countEscQB_map_Lit. Qed.

Lemma count_esc c q : NoQB q ->
  countEscQB (lexEscapes (backslash :: c :: q)) = if isQB c then 1%nat else 0%nat.
Proof.
  intros Hq. cbn [lexEscapes]. replace (Byte.eqb backslash backslash) with true by reflexivity.
  rewrite lex_plain_nil by exact Hq. unfold countEscQB. cbn [filter].
  fold (countEscQB (map Lit q)). destruct (isQB c); cbn [List.length];
  fold (countEscQB (map Lit q)); rewrite countEscQB_map_Lit; reflexivity.
Qed.

Lemma quoteRune_count isPrintTables s0 r w : 0 <= r <= Utf8.MaxRune ->
  countEscQB (lexEscapes (quoteRune isPrintTables s0 r w))
  = if (r =? 34) || (r =? 92) then 1%nat else 0%nat.
Proof.
  intros Hr. unfold quoteRune.
  destruct (Nat.eqb w 1 && (r =? Utf8.RuneError)) eqn:Ee.
  { apply andb_true_iff in Ee as [_ Ee]. apply Z.eqb_eq in Ee. subst r.
    rewrite (count_esc _ [_; _]) by (repeat constructor; apply hexdig_noQB). reflexivity. }
  destruct ((r =? 34) || (r =? 92)) eqn:Eq.
  { apply orb_true_iff in Eq as [E|E]; apply Z.eqb_eq in E; subst r; reflexivity. }
  apply orb_false_iff in Eq as [E34 E92]. apply Z.eqb_neq in E34, E92.
  destruct (IsPrint isPrintTables r).
  { apply count_plain, EncodeRune_noQB; assumption. }
  repeat match goal with
  | |- context [if ?c then _ else _] => destruct c
  end; try reflexivity;
  first [ refine (eq_trans (count_esc _ _ (hexShifts_noQB _ _)) _); reflexivity
        | rewrite (count_esc _ [_; _]) by (repeat constructor; apply hexdig_noQB); reflexivity ].
Qed.

Lemma quoteRune_nonempty isPrintTables s0 r w :
  (1 <= List.length (quoteRune isPrintTables s0 r w))%nat.
Proof.
  unfold quoteRune.
  repeat match goal with
  | |- context [if ?c then _ else _] => destruct c
  end; try (cbn; lia); apply EncodeRune_len.
Qed.

Lemma countQB_ge128 l : Forall (fun b => 128 <= b2z b) l -> countQB l = 0%nat.
Proof.
  induction 1 as [|b l Hb Hl IH]; [reflexivity|].
  unfold countQB. cbn [filter]. rewrite noQB_ge128 by exact Hb. exact IH.
Qed.

(** One iteration of the loop: it consumes between one byte and the whole
    rest, appends a well-formed piece at least as long as what it consumed,
    and escapes exactly the double quotes and backslashes it consumed. *)
Lemma quoteStep_spec isPrintTables s0 t :
  let '(p, w) := quoteStep isPrintTables s0 (s0 :: t) in
  (1 <= w <= List.length (s0 :: t))%nat /\ PieceShape p /\
  countEscQB (lexEscapes p) = countQB (firstn w (s0 :: t)) /\ (w <= List.length p)%nat.
Proof.
  unfold quoteStep. pose proof (b2z_range s0) as R0.
  destruct (Utf8.RuneSelf <=? b2z s0) eqn:HS.
  - destruct (Utf8.DecodeRuneInString (s0 :: t)) as [r w] eqn:D. apply Z.leb_le in HS.
    destruct (decode_spec s0 t r w HS D) as [[-> ->] | (Hw2 & Hwl & Hv & H128 & Hall & Henc)].
    + assert (Q : quoteRune isPrintTables s0 Utf8.RuneError 1 =
                  [backslash; Byte.x78; hexdig (Z.shiftr (b2z s0) 4); hexdig (Z.land (b2z s0) 15)])
        by reflexivity.
      rewrite Q. split; [cbn [List.length]; lia|]. split.
      { apply (PS_esc _ [_; _]). repeat constructor; apply hexdig_noQB. }
      split; [|cbn; lia].
      rewrite (count_esc _ [_; _]) by (repeat constructor; apply hexdig_noQB).
      unfold countQB. cbn [firstn filter]. rewrite (noQB_ge128 s0 HS). reflexivity.
    + apply ValidRune_iff in Hv as Hv'. split; [lia|]. split; [apply quoteRune_shape; lia|].
      split.
      { rewrite quoteRune_count by lia. rewrite countQB_ge128 by exact Hall.
        replace ((r =? 34) || (r =? 92)) with false by (symmetry; apply orb_false_iff; split; apply Z.eqb_neq; lia).
        reflexivity. }
      assert (Hlen : List.length (firstn w (s0 :: t)) = w) by (apply firstn_length_le; lia).
      pose proof (EncodeRune_len r) as HL. rewrite Henc, Hlen in HL.
      unfold quoteRune.
      replace (Nat.eqb w 1 && (r =? Utf8.RuneError)) with false
        by (destruct w as [|[|w]]; [lia | lia | reflexivity]).
      replace ((r =? 34) || (r =? 92)) with false by (symmetry; apply orb_false_iff; split; apply Z.eqb_neq; lia).
      destruct (IsPrint isPrintTables r).
      { rewrite Henc, Hlen. lia. }
      unfold Utf8.MaxRune in Hv'.
      repeat match goal with
      | |- context [if ?a =? ?b then _ else _] => replace (a =? b) with false by (symmetry; apply Z.eqb_neq; lia)
      | |- context [if ?a <? ?b then _ else _] => destruct (Z.ltb_spec a b); try (exfalso; unfold Utf8.MaxRune in *; lia)
      end; cbn; lia.
  - apply Z.leb_gt in HS. unfold Utf8.RuneSelf in HS.
    split; [cbn; lia|]. split; [apply quoteRune_shape; unfold Utf8.MaxRune; lia|].
    split; [|apply quoteRune_nonempty].
    rewrite quoteRune_count by (unfold Utf8.MaxRune; lia).
    unfold countQB. cbn [firstn filter]. rewrite isQB_b2z.
    destruct ((b2z s0 =? 34) || (b2z s0 =? 92)); reflexivity.
Qed.

Section Loop.

Variable isPrintTables : Z -> bool.

Lemma loop_app n buf s :
  appendQuoted_loop isPrintTables n buf s = buf ++ appendQuoted_loop isPrintTables n [] s.
Proof.
  revert buf s. induction n as [|n IH]; intros buf s; cbn [appendQuoted_loop].
  - rewrite app_nil_r. reflexivity.
  - destruct s as [|s0 t]; [rewrite app_nil_r; reflexivity|].
    destruct (quoteStep isPrintTables s0 (s0 :: t)) as [p w].
    rewrite IH, (IH (p)), app_assoc. reflexivity.
Qed.

Lemma quoteStep_width s0 t :
  (1 <= snd (quoteStep isPrintTables s0 (s0 :: t)) <= List.length (s0 :: t))%nat.
Proof.
  pose proof (quoteStep_spec isPrintTables s0 t) as H.
  destruct (quoteStep isPrintTables s0 (s0 :: t)) as [p w]. apply H.
Qed.

(** Any fuel of at least [len(s)] gives the same result. *)
Lemma loop_enough n m buf s : (List.length s <= n)%nat -> (List.length s <= m)%nat ->
  appendQuoted_loop isPrintTables n buf s = appendQuoted_loop isPrintTables m buf s.
Proof.
  revert m buf s. induction n as [|n IH]; intros m buf s Hn Hm.
  - destruct s; [|cbn in Hn; lia]. destruct m; reflexivity.
  - destruct s as [|s0 t].
    + destruct m; reflexivity.
    + destruct m as [|m]; [cbn in Hm; lia|]. cbn [appendQuoted_loop].
      pose proof (quoteStep_width s0 t) as Hw.
      destruct (quoteStep isPrintTables s0 (s0 :: t)) as [p w]. cbn [snd] in Hw.
      apply IH; rewrite length_skipn; lia.
Qed.

Lemma appendQuoted_step s0 t buf :
  appendQuoted isPrintTables buf (s0 :: t) =
  let '(p, w) := quoteStep isPrintTables s0 (s0 :: t) in
  appendQuoted isPrintTables (buf ++ p) (skipn w (s0 :: t)).
Proof.
  unfold appendQuoted. cbn [List.length appendQuoted_loop].
  pose proof (quoteStep_width s0 t) as Hw.
  destruct (quoteStep isPrintTables s0 (s0 :: t)) as [p w]. cbn [snd] in Hw.
  apply loop_enough; rewrite length_skipn; cbn [List.length] in *; lia.
Qed.

Lemma appendQuoted_app buf s :
  appendQuoted isPrintTables buf s = buf ++ appendQuoted isPrintTables [] s.
Proof. apply loop_app. Qed.

Lemma loop_lex n s : (List.length s <= n)%nat ->
  GoodToks (lexEscapes (appendQuoted_loop isPrintTables n [] s)) /\
  countEscQB (lexEscapes (appendQuoted_loop isPrintTables n [] s)) = countQB s.
Proof.
  revert s. induction n as [|n IH]; intros s Hn.
  - destruct s; [|cbn in Hn; lia]. split; [constructor | reflexivity].
  - destruct s as [|s0 t]; [split; [constructor | reflexivity]|].
    cbn [appendQuoted_loop].
    pose proof (quoteStep_spec isPrintTables s0 t) as Hs.
    destruct (quoteStep isPrintTables s0 (s0 :: t)) as [p w]. rewrite app_nil_l.
    destruct Hs as (Hw & Hshape & Hcount & _).
    rewrite loop_app, lex_piece by exact Hshape.
    destruct (IH (skipn w (s0 :: t))) as [IHg IHc]; [rewrite length_skipn; cbn [List.length] in *; lia|].
    split.
    + apply Forall_app. split; [apply piece_good, Hshape | exact IHg].
    + rewrite countEscQB_app, IHc, Hcount, <- countQB_app, firstn_skipn. reflexivity.
Qed.

Lemma loop_length n s : (List.length s <= n)%nat ->
  (List.length s <= List.length (appendQuoted_loop isPrintTables n [] s))%nat.
Proof.
  revert s. induction n as [|n IH]; intros s Hn.
  - destruct s; [|cbn in Hn; lia]. cbn. lia.
  - destruct s as [|s0 t]; [cbn; lia|].
    cbn [appendQuoted_loop].
    pose proof (quoteStep_spec isPrintTables s0 t) as Hs.
    destruct (quoteStep isPrintTables s0 (s0 :: t)) as [p w]. rewrite app_nil_l.
    destruct Hs as (Hw & _ & _ & Hlen).
    rewrite loop_app, length_app.
    specialize (IH (skipn w (s0 :: t))). rewrite length_skipn in IH.
    cbn [List.length] in *. lia.
Qed.

(** Reading back a text whose reading has no bare double quote: every
    double quote byte sits right after a backslash. *)
Lemma good_quote_preceded out : GoodToks (lexEscapes out) ->
  forall i, nth_error out i = Some dquote ->
  exists j, i = S j /\ nth_error out j = Some backslash.
Proof.
  induction out as [out IH] using (well_founded_induction (Wf_nat.well_founded_ltof _ (@List.length byte))).
  intros Hg i Hi. destruct out as [|b t]; [destruct i; discriminate|].
  cbn [lexEscapes] in Hg. destruct (Byte.eqb b backslash) eqn:Eb.
  - apply Byte.byte_dec_bl in Eb. subst b.
    destruct t as [|c t']; [inversion Hg as [|? ? [Hd _]]; exfalso; apply Hd; reflexivity|].
    inversion Hg as [|? ? _ Hg']; subst.
    destruct i as [|[|i]].
    + discriminate.
    + exists 0%nat. split; reflexivity.
    + destruct (IH t' ltac:(unfold Wf_nat.ltof; cbn; lia) Hg' i Hi) as [j [-> Hj]].
      exists (S (S j)). split; [reflexivity | exact Hj].
  - inversion Hg as [|? ? [_ [Hq _]] Hg']; subst.
    destruct i as [|i].
    + cbn in Hi. injection Hi as ->. exfalso. apply Hq. reflexivity.
    + destruct (IH t ltac:(unfold Wf_nat.ltof; cbn; lia) Hg' i Hi) as [j [-> Hj]].
      exists (S j). split; [reflexivity | exact Hj].
Qed.

End Loop.

(** * The claims on the escaping primitive *)

Lemma skipn_length_app (l r : bytes) : skipn (List.length l) (l ++ r) = r.
Proof. induction l as [|b l IH]; [reflexivity | exact IH]. Qed.

Lemma EncodeRune_head r : 128 <= r <= Utf8.MaxRune ->
  exists s0 e, Utf8.EncodeRune r = s0 :: e /\ 128 <= b2z s0 /\ (1 <= List.length e)%nat.
Proof.
  intros Hr. unfold Utf8.EncodeRune, Utf8.encode3.
  rewrite (Z.mod_small r) by (change (2 ^ 32) with 4294967296; unfold Utf8.MaxRune in Hr; lia).
  destruct (r <=? Utf8.rune1Max) eqn:E1;
    [apply Z.leb_le in E1; unfold Utf8.rune1Max in E1; lia|].
  repeat match goal with |- context [if ?c then _ else _] => destruct c end;
    eexists _, _; (split; [reflexivity|]); (split; [rewrite b2z_z2b; apply lor_bit7; reflexivity | cbn; lia]).
Qed.

Lemma decode_le_MaxRune s : 0 <= fst (Utf8.DecodeRuneInString s) <= Utf8.MaxRune.
Proof.
  destruct s as [|s0 t]; [cbv; split; discriminate|].
  pose proof (b2z_range s0) as R0.
  destruct (Z.lt_ge_cases (b2z s0) 128) as [Hlt|Hge].
  - unfold Utf8.DecodeRuneInString, Utf8.first. rewrite (proj2 (Z.ltb_lt _ _) Hlt).
    cbn [fst]. unfold Utf8.MaxRune. lia.
  - destruct (Utf8.DecodeRuneInString (s0 :: t)) as [r w] eqn:D. cbn [fst].
    destruct (decode_spec s0 t r w Hge D) as [[_ ->]|(_ & _ & HV & _)].
    + unfold Utf8.RuneError, Utf8.MaxRune. lia.
    + apply ValidRune_iff in HV. lia.
Qed.

Section Claims.
Variable isPrintTables : Z -> bool.

Lemma appendQuoted_printable_rune r rest buf :
  Utf8.ValidRune r = true -> IsPrint isPrintTables r = true -> r <> 34 -> r <> 92 ->
  appendQuoted isPrintTables buf (Utf8.EncodeRune r ++ rest) =
  appendQuoted isPrintTables (buf ++ Utf8.EncodeRune r) rest.
Proof.
  intros HV HP H34 H92. pose proof HV as HV'. apply ValidRune_iff in HV' as [Hr _].
  destruct (Z.lt_ge_cases r 128) as [Hlt|Hge].
  - assert (E : Utf8.EncodeRune r = [z2b r]).
    { unfold Utf8.EncodeRune. rewrite (Z.mod_small r) by (change (2 ^ 32) with 4294967296; lia).
      unfold Utf8.rune1Max. rewrite (proj2 (Z.leb_le r 127)) by lia. reflexivity. }
    rewrite E. cbn [app]. rewrite appendQuoted_step. unfold quoteStep.
    rewrite b2z_z2b, (Z.mod_small r) by lia. unfold Utf8.RuneSelf.
    rewrite (proj2 (Z.leb_gt 128 r)) by lia.
    unfold quoteRune.
    rewrite (proj2 (Z.eqb_neq r Utf8.RuneError)) by (unfold Utf8.RuneError; lia).
    rewrite (proj2 (Z.eqb_neq r 34)), (proj2 (Z.eqb_neq r 92)) by assumption.
    cbn [andb orb Nat.eqb]. rewrite HP, E. reflexivity.
  - destruct (EncodeRune_head r (conj Hge (proj2 Hr))) as (s0 & e & He & H0 & Hl).
    pose proof (encode_decode r rest HV Hge) as D. rewrite He in D. cbn [app] in D.
    rewrite He. cbn [app]. rewrite appendQuoted_step. unfold quoteStep.
    unfold Utf8.RuneSelf. rewrite (proj2 (Z.leb_le 128 (b2z s0)) H0), D.
    unfold quoteRune.
    replace (Nat.eqb (List.length (s0 :: e)) 1) with false
      by (symmetry; apply Nat.eqb_neq; cbn [List.length]; lia).
    rewrite (proj2 (Z.eqb_neq r 34)), (proj2 (Z.eqb_neq r 92)) by assumption.
    cbn [andb orb]. rewrite HP, He.
    change (s0 :: e ++ rest) with ((s0 :: e) ++ rest). rewrite skipn_length_app. reflexivity.
Qed.


End Claims.


(** C4: a valid UTF-8 text made of printable runes other than the double
    quote and the backslash is appended unchanged. *)
Theorem C4_printable_unchanged (isPrintTables : Z -> bool) (rs : list Z) (buf : bytes) :
  Forall (fun r => Utf8.ValidRune r = true /\ IsPrint isPrintTables r = true /\
                   r <> 34 /\ r <> 92) rs ->
  appendQuoted isPrintTables buf (List.concat (map Utf8.EncodeRune rs)) =
  buf ++ List.concat (map Utf8.EncodeRune rs).
Proof.
  intros H. revert buf. induction H as [|r rs (HV & HP & H34 & H92) _ IH]; intros buf.
  - cbn. rewrite app_nil_r. reflexivity.
  - cbn [map List.concat]. rewrite appendQuoted_printable_rune by assumption.
    rewrite IH, app_assoc. reflexivity.
Qed.

Lemma C4_witness :
  Forall (fun r => Utf8.ValidRune r = true /\ IsPrint latin1Tables r = true /\
                   r <> 34 /\ r <> 92) [104; 233; 246] /\
  appendQuoted latin1Tables (s2b "x") (List.concat (map Utf8.EncodeRune [104; 233; 246])) =
  s2b "x" ++ List.concat (map Utf8.EncodeRune [104; 233; 246]).
Proof.
  assert (H : Forall (fun r => Utf8.ValidRune r = true /\ IsPrint latin1Tables r = true /\
                   r <> 34 /\ r <> 92) [104; 233; 246]).
  { repeat constructor; try reflexivity; lia. }
  split; [exact H | apply (C4_printable_unchanged latin1Tables _ _ H)].
Defined.

(** C5: reading the appended text from left to right, where a backslash
    escapes the byte after it, no double quote or backslash is left bare
    and no escape is unfinished, so each of them is preceded by exactly the
    one backslash that escapes it; and the number of escaped double quotes
    and backslashes of the appended text is the number of double quotes
    and backslashes of the input. *)
Theorem C5_quote_backslash_escaped (isPrintTables : Z -> bool) (buf s : bytes) :
  exists out, appendQuoted isPrintTables buf s = buf ++ out /\
    GoodToks (lexEscapes out) /\ countEscQB (lexEscapes out) = countQB s.
Proof.
  exists (appendQuoted isPrintTables [] s). split; [apply appendQuoted_app|].
  apply loop_lex. lia.
Qed.

(** C6: at a byte of value at least 0x80 that does not start a valid UTF-8
    sequence, [appendQuoted] appends backslash, [x] and the two lowercase
    hex digits of the byte's value, and goes on with the very next byte;
    and an output is never shorter than its input. *)
Theorem C6_invalid_byte_hex (isPrintTables : Z -> bool) (buf : bytes) (s0 : byte) (t : bytes) :
  Utf8.DecodeRuneInString (s0 :: t) = (Utf8.RuneError, 1%nat) ->
  appendQuoted isPrintTables buf (s0 :: t) =
  appendQuoted isPrintTables
    (buf ++ [backslash; Byte.x78; hexdig (b2z s0 / 16); hexdig (b2z s0 mod 16)]) t /\
  (forall u, (List.length u <= List.length (appendQuoted isPrintTables [] u))%nat).
Proof.
  intros D. split.
  - rewrite appendQuoted_step. unfold quoteStep. unfold Utf8.RuneSelf.
    destruct (Z.leb_spec 128 (b2z s0)) as [H0|H0].
    2:{ unfold Utf8.DecodeRuneInString, Utf8.first in D.
        rewrite (proj2 (Z.ltb_lt _ _) H0) in D. injection D as E.
        pose proof (b2z_range s0). unfold Utf8.RuneError in E. lia. }
    rewrite D. unfold quoteRune.
    rewrite Z.eqb_refl. cbn [Nat.eqb andb skipn].
    rewrite Z.shiftr_div_pow2 by lia. change (2 ^ 4) with 16.
    change 15 with (Z.ones 4). rewrite Z.land_ones by lia. reflexivity.
  - intros u. apply loop_length. lia.
Qed.

Lemma C6_witness :
  Utf8.DecodeRuneInString [Byte.xff; Byte.x41] = (Utf8.RuneError, 1%nat) /\
  (appendQuoted latin1Tables [] [Byte.xff; Byte.x41] =
   appendQuoted latin1Tables
     ([] ++ [backslash; Byte.x78; hexdig (b2z Byte.xff / 16); hexdig (b2z Byte.xff mod 16)]) [Byte.x41] /\
   (forall u, (List.length u <= List.length (appendQuoted latin1Tables [] u))%nat)).
Proof.
  assert (D : Utf8.DecodeRuneInString [Byte.xff; Byte.x41] = (Utf8.RuneError, 1%nat))
    by reflexivity.
  split; [exact D|].
  exact (C6_invalid_byte_hex latin1Tables [] Byte.xff [Byte.x41] D).
Defined.

(** C8: a rune above U+10FFFF that reaches the non-printable branch of the
    loop body (one the printability tables do not accept, as Go's tables
    accept none) is replaced by U+FFFD, whose [\u] escape is written ([\ufffd]);
    no decoded code point ever exceeds U+10FFFF, so on every input the
    rune the loop body handles is at most the maximum, and whenever it
    were above it the iteration would write that replacement escape. *)
Theorem C8_no_rune_above_max (isPrintTables : Z -> bool) :
  (forall s0 r w, Utf8.MaxRune < r -> isPrintTables r = false ->
     quoteRune isPrintTables s0 r w = s2b "\u" ++ hexShifts Utf8.RuneError [12; 8; 4; 0]) /\
  (forall s0 t, 0 <= fst (Utf8.DecodeRuneInString (s0 :: t)) <= Utf8.MaxRune) /\
  (forall s0 t r w,
     (if Utf8.RuneSelf <=? b2z s0 then Utf8.DecodeRuneInString (s0 :: t) else (b2z s0, 1%nat)) = (r, w) ->
     r <= Utf8.MaxRune /\
     (Utf8.MaxRune < r ->
        quoteStep isPrintTables s0 (s0 :: t) = (s2b "\u" ++ hexShifts Utf8.RuneError [12; 8; 4; 0], w))) /\
  quoteRune latin1Tables Byte.x41 1114112 1 = s2b "\ufffd".
Proof.
  split; [|split; [intros s0 t; apply decode_le_MaxRune|split; [|vm_compute; reflexivity]]].
  - intros s0 r w Hr HP. unfold quoteRune, IsPrint. unfold Utf8.MaxRune in Hr.
    rewrite (proj2 (Z.eqb_neq r Utf8.RuneError)) by (unfold Utf8.RuneError; lia).
    rewrite andb_false_r.
    rewrite (proj2 (Z.eqb_neq r 34)), (proj2 (Z.eqb_neq r 92)) by lia. cbn [orb].
    rewrite (proj2 (Z.leb_gt r 255)), HP by lia.
    rewrite (proj2 (Z.eqb_neq r 7)), (proj2 (Z.eqb_neq r 8)), (proj2 (Z.eqb_neq r 12)),
      (proj2 (Z.eqb_neq r 10)), (proj2 (Z.eqb_neq r 13)), (proj2 (Z.eqb_neq r 9)),
      (proj2 (Z.eqb_neq r 11)) by lia.
    rewrite (proj2 (Z.ltb_ge r 32)), (proj2 (Z.ltb_lt Utf8.MaxRune r)) by (unfold Utf8.MaxRune; lia).
    reflexivity.
  - intros s0 t r w E.
    assert (Hr : r <= Utf8.MaxRune).
    { destruct (Utf8.RuneSelf <=? b2z s0).
      + pose proof (decode_le_MaxRune (s0 :: t)) as H. rewrite E in H. cbn [fst] in H. lia.
      + injection E as <- _. pose proof (b2z_range s0). unfold Utf8.MaxRune. lia. }
    split; [exact Hr | intros H; lia].
Qed.

(** C9: whatever the buffer and the input, every double quote byte of the
    appended text comes right after a backslash byte. *)
Theorem C9_no_bare_dquote (isPrintTables : Z -> bool) (buf s : bytes) :
  exists out, appendQuoted isPrintTables buf s = buf ++ out /\
    forall i, nth_error out i = Some dquote ->
      exists j, i = S j /\ nth_error out j = Some backslash.
Proof.
  exists (appendQuoted isPrintTables [] s). split; [apply appendQuoted_app|].
  apply good_quote_preceded. apply loop_lex. lia.
Qed.

(** C10: each iteration of the loop of [appendQuoted] advances by at least
    one byte and at most the rest of the input, so [len(s)] iterations
    reach the end: any further iterations change nothing. *)
Theorem C10_terminates (isPrintTables : Z -> bool) :
  (forall s0 t, (1 <= snd (quoteStep isPrintTables s0 (s0 :: t)) <= List.length (s0 :: t))%nat) /\
  (forall n buf s, appendQuoted_loop isPrintTables (List.length s + n) buf s =
                   appendQuoted isPrintTables buf s).
Proof.
  split; [apply quoteStep_width|]. intros n buf s.
  unfold appendQuoted. apply loop_enough; lia.
Qed.

(** * The claims on the log line *)

(** * Floating point: the quotient of [prettyDuration] is finite *)

Lemma digits2_pos_log2 p : Zpos (digits2_pos p) = Z.log2 (Zpos p) + 1.
Proof.
  induction p as [p IH|p IH|]; cbn [digits2_pos]; [| |reflexivity];
    rewrite Pos2Z.inj_succ, IH.
  - rewrite Pos2Z.inj_xI, Z.log2_succ_double by lia. lia.
  - rewrite Pos2Z.inj_xO, Z.log2_double by lia. lia.
Qed.

Lemma Zdigits2_nonneg m : 0 <= Zdigits2 m.
Proof. destruct m; cbn; lia. Qed.

Lemma Zdigits2_le m k : 0 <= m -> 0 <= k -> (Zdigits2 m <= k <-> m < 2 ^ k).
Proof.
  intros Hm Hk. destruct m as [|p|p]; [|cbn [Zdigits2]|lia].
  - cbn. split; [intros _; apply Z.pow_pos_nonneg; lia | lia].
  - rewrite digits2_pos_log2, (Z.log2_lt_pow2 (Zpos p) k) by lia. lia.
Qed.

Lemma Zdigits2_spec m : 0 <= m -> m < 2 ^ Zdigits2 m.
Proof. intros Hm. apply Zdigits2_le; [exact Hm | apply Zdigits2_nonneg | lia]. Qed.

Lemma Zdigits2_mono a b : 0 <= a <= b -> Zdigits2 a <= Zdigits2 b.
Proof.
  intros H. apply Zdigits2_le; [lia | apply Zdigits2_nonneg |].
  pose proof (Zdigits2_spec b ltac:(lia)). lia.
Qed.

Lemma Zdigits2_succ m : 0 <= m -> Zdigits2 (m + 1) <= Zdigits2 m + 1.
Proof.
  intros Hm. pose proof (Zdigits2_spec m Hm). pose proof (Zdigits2_nonneg m).
  apply Zdigits2_le; [lia | lia |]. rewrite Z.pow_add_r by lia. lia.
Qed.

Lemma Zdigits2_div_pow2 m n : 0 <= m -> 0 <= n ->
  m / 2 ^ n = 0 \/ Zdigits2 (m / 2 ^ n) + n <= Zdigits2 m.
Proof.
  intros Hm Hn. pose proof (Zdigits2_spec m Hm) as Hs. pose proof (Zdigits2_nonneg m).
  destruct (Z.lt_ge_cases (Zdigits2 m) n) as [Hlt|Hge].
  - left. apply Z.div_small. split; [lia|].
    apply (Z.lt_le_trans _ _ _ Hs). apply Z.pow_le_mono_r; lia.
  - right. enough (Zdigits2 (m / 2 ^ n) <= Zdigits2 m - n) by lia.
    apply Zdigits2_le; [apply Z.div_pos; [lia | apply Z.pow_pos_nonneg; lia] | lia |].
    apply Z.div_lt_upper_bound; [apply Z.pow_pos_nonneg; lia|].
    rewrite <- Z.pow_add_r by lia. replace (n + (Zdigits2 m - n)) with (Zdigits2 m) by lia.
    exact Hs.
Qed.

Lemma shr_1_half mrs : 0 <= shr_m mrs ->
  0 <= shr_m (shr_1 mrs) /\ shr_m (shr_1 mrs) = shr_m mrs / 2.
Proof.
  destruct mrs as [m r s]. cbn [shr_m]. intros Hm.
  destruct m as [|[q|q|]|q]; [| | | |exfalso; lia]; cbn [shr_1 shr_m];
    (split; [lia|]); [reflexivity| | |reflexivity].
  - rewrite Pos2Z.inj_xI, Z.mul_comm, Z.div_add_l by lia. reflexivity.
  - rewrite Pos2Z.inj_xO, Z.mul_comm, Z.div_mul by lia. reflexivity.
Qed.

Lemma shr_iter p mrs : 0 <= shr_m mrs ->
  0 <= shr_m (iter_pos shr_1 p mrs) /\ shr_m (iter_pos shr_1 p mrs) = shr_m mrs / 2 ^ Zpos p.
Proof.
  revert mrs. induction p as [p IH|p IH|]; intros mrs Hm; cbn [iter_pos].
  - destruct (shr_1_half mrs Hm) as [H1 E1].
    destruct (IH _ H1) as [H2 E2]. destruct (IH _ H2) as [H3 E3].
    split; [exact H3|]. rewrite E3, E2, E1.
    pose proof (Z.pow_pos_nonneg 2 (Zpos p) ltac:(lia) ltac:(lia)).
    rewrite !Z.div_div by lia.
    f_equal. replace (Z.pos p~1) with (Z.pos p + Z.pos p + 1) by lia.
    rewrite !Z.pow_add_r by lia. ring.
  - destruct (IH _ Hm) as [H2 E2]. destruct (IH _ H2) as [H3 E3].
    split; [exact H3|]. rewrite E3, E2.
    pose proof (Z.pow_pos_nonneg 2 (Zpos p) ltac:(lia) ltac:(lia)).
    rewrite Z.div_div by lia.
    f_equal. replace (Z.pos p~0) with (Z.pos p + Z.pos p) by lia.
    rewrite !Z.pow_add_r by lia. ring.
  - exact (shr_1_half mrs Hm).
Qed.

Lemma shr_m_of_loc m l : shr_m (shr_record_of_loc m l) = m.
Proof. destruct l as [|[| |]]; reflexivity. Qed.

Lemma shr_fexp_bound m e l : 0 <= m ->
  let '(mrs, e') := shr_fexp 53 1024 m e l in
  0 <= shr_m mrs /\ Zdigits2 (shr_m mrs) + e' <= Z.max (Zdigits2 m + e) (-1074) /\
  e' <= Z.max (Zdigits2 m + e) (-1074).
Proof.
  intros Hm. pose proof (Zdigits2_nonneg m).
  unfold shr_fexp, shr, fexp, emin.
  match goal with |- context [match ?x with Zpos _ => _ | _ => _ end] => destruct x eqn:En end.
  - rewrite shr_m_of_loc. lia.
  - destruct (shr_iter p (shr_record_of_loc m l)) as [H1 E1]; [rewrite shr_m_of_loc; lia|].
    rewrite shr_m_of_loc in E1. rewrite E1. rewrite E1 in H1. split; [exact H1|].
    destruct (Zdigits2_div_pow2 m (Zpos p) Hm ltac:(lia)) as [Z0|Hd]; [rewrite Z0; cbn [Zdigits2]|]; lia.
  - rewrite shr_m_of_loc. lia.
Qed.

Lemma rne_bound m l : 0 <= m -> 0 <= round_nearest_even m l <= m + 1.
Proof. intros Hm. destruct l as [|[| |]]; cbn; try destruct (Z.even m); lia. Qed.

(** Rounding a value below [2 ^ 899] never overflows. *)
Lemma round_aux_ok sx mx ex lx : 0 <= mx -> Zdigits2 mx + ex <= 899 ->
  binary_round_aux 53 1024 sx mx ex lx = S754_zero sx \/
  exists m e, binary_round_aux 53 1024 sx mx ex lx = S754_finite sx m e /\
              Zpos (digits2_pos m) + e <= Z.max (Zdigits2 mx + ex + 1) (-1073).
Proof.
  intros Hm HD. unfold binary_round_aux.
  pose proof (shr_fexp_bound mx ex lx Hm) as H1.
  destruct (shr_fexp 53 1024 mx ex lx) as [mrs' e'] eqn:E1.
  destruct H1 as (H1a & H1b & H1c).
  pose proof (rne_bound (shr_m mrs') (loc_of_shr_record mrs') H1a) as Hr.
  set (mr := round_nearest_even (shr_m mrs') (loc_of_shr_record mrs')) in *.
  assert (Hdr : Zdigits2 mr <= Zdigits2 (shr_m mrs') + 1).
  { pose proof (Zdigits2_mono mr (shr_m mrs' + 1) ltac:(lia)).
    pose proof (Zdigits2_succ (shr_m mrs') H1a). lia. }
  pose proof (shr_fexp_bound mr e' loc_Exact (proj1 Hr)) as H2.
  destruct (shr_fexp 53 1024 mr e' loc_Exact) as [mrs'' e''] eqn:E2.
  destruct H2 as (H2a & H2b & H2c).
  destruct (shr_m mrs'') as [|p|p] eqn:Em; [left; reflexivity | right | lia].
  replace (Z.leb e'' (Z.sub 1024 53)) with true by (symmetry; apply Z.leb_le; lia).
  exists p, e''. split; [reflexivity|].
  change (Zpos (digits2_pos p)) with (Zdigits2 (Zpos p)). lia.
Qed.

Lemma Pos_iter_xO p d : Zpos (Pos.iter xO p d) = Zpos p * 2 ^ Zpos d.
Proof.
  induction d as [|d IH] using Pos.peano_ind.
  - cbn. lia.
  - rewrite Pos.iter_succ, Pos2Z.inj_xO, IH, Pos2Z.inj_succ, Z.pow_succ_r by lia. ring.
Qed.

Lemma binary_round_ok sx p e : Zpos (digits2_pos p) + e <= 898 ->
  binary_round 53 1024 sx p e = S754_zero sx \/
  exists m e', binary_round 53 1024 sx p e = S754_finite sx m e' /\
               Zpos (digits2_pos m) + e' <= Z.max (Zpos (digits2_pos p) + e + 1) (-1073).
Proof.
  intros HD. unfold binary_round, shl_align.
  destruct (fexp 53 1024 (Zpos (digits2_pos p) + e) - e) as [|d|d] eqn:Es;
    cbv beta iota.
  - apply round_aux_ok; cbn [Zdigits2]; lia.
  - apply round_aux_ok; cbn [Zdigits2]; lia.
  - assert (Hd : Zdigits2 (Zpos (Pos.iter xO p d)) <= Zpos (digits2_pos p) + Zpos d).
    { apply Zdigits2_le; [lia | lia |]. rewrite Pos_iter_xO, Z.pow_add_r by lia.
      pose proof (Zdigits2_spec (Zpos p) ltac:(lia)) as Hp. cbn [Zdigits2] in Hp.
      apply Z.mul_lt_mono_pos_r; [apply Z.pow_pos_nonneg|]; lia. }
    assert (Hf : fexp 53 1024 (Zpos (digits2_pos p) + e) = e - Zpos d) by lia.
    rewrite Hf.
    destruct (round_aux_ok sx (Zpos (Pos.iter xO p d)) (e - Zpos d) loc_Exact ltac:(lia) ltac:(lia))
      as [Z0|(m & e' & Em & Hb)]; [left; exact Z0 | right; exists m, e'; split; [exact Em | lia]].
Qed.

Lemma float64_of_Z_ok n : Z.abs n <= 2 ^ 63 ->
  (exists s, float64_of_Z n = S754_zero s) \/
  exists s m e, float64_of_Z n = S754_finite s m e /\ Zpos (digits2_pos m) + e <= 65.
Proof.
  intros Hn. unfold float64_of_Z, binary_normalize.
  destruct n as [|p|p]; [left; eauto| |]; cbn [Z.abs] in Hn;
  (assert (Hp : Zpos (digits2_pos p) <= 64)
    by (change (Zpos (digits2_pos p)) with (Zdigits2 (Zpos p)); apply Zdigits2_le; lia));
  [ destruct (binary_round_ok false p 0 ltac:(lia)) as [Z0|(m & e & E & B)]
  | destruct (binary_round_ok true p 0 ltac:(lia)) as [Z0|(m & e & E & B)] ];
  solve [ left; eauto | right; do 3 eexists; split; [exact E | lia] ].
Qed.

Lemma float64_1e6 : float64_of_Z 1000000 = S754_finite false 8589934592000000 (-33).
Proof. vm_compute. reflexivity. Qed.

Lemma div_core_bound m1 e1 : Zpos (digits2_pos m1) + e1 <= 65 ->
  let '(q, e', _) := SFdiv_core_binary 53 1024 (Zpos m1) e1 (Zpos 8589934592000000) (-33) in
  0 <= q /\ Zdigits2 q + e' <= 899.
Proof.
  intros HD. unfold SFdiv_core_binary.
  change (Zdigits2 (Zpos 8589934592000000)) with 53. cbn [Zdigits2].
  remember (Z.min (fexp 53 1024 (Zpos (digits2_pos m1) + e1 - (53 + -33))) (e1 - -33)) as e' eqn:He'.
  assert (Hle : e' <= e1 + 33) by lia.
  assert (Hf : e' <= Z.max (Zpos (digits2_pos m1) + e1 - 20 - 53) (-1074))
    by (rewrite He'; unfold fexp, emin; lia).
  assert (Hm1 : Zpos m1 < 2 ^ Zpos (digits2_pos m1))
    by (apply (Zdigits2_spec (Zpos m1)); lia).
  set (s := e1 - -33 - e').
  assert (Hs : 0 <= s) by lia.
  assert (Hmv : exists m', m' = Zpos m1 * 2 ^ s /\
     (match s with Zpos _ => Z.shiftl (Zpos m1) s | Z0 => Zpos m1 | Zneg _ => 0 end) = m').
  { eexists; split; [reflexivity|]. destruct s as [|p|p] eqn:Es'; [cbn; lia | | lia].
    rewrite Z.shiftl_mul_pow2 by lia. reflexivity. }
  destruct Hmv as (m' & Hm' & ->).
  destruct (Z.div_eucl m' (Zpos 8589934592000000)) as [q r] eqn:Ed.
  assert (Hq : q = m' / Zpos 8589934592000000) by (unfold Z.div; rewrite Ed; reflexivity).
  assert (Hm'0 : 0 <= m') by (rewrite Hm'; pose proof (Z.pow_nonneg 2 s); lia).
  assert (Hq0 : 0 <= q) by (rewrite Hq; apply Z.div_pos; lia).
  split; [exact Hq0|].
  assert (Hdm : Zdigits2 m' <= Zpos (digits2_pos m1) + s).
  { apply Zdigits2_le; [lia | lia |]. rewrite Hm', Z.pow_add_r by lia.
    apply Z.mul_lt_mono_pos_r; [apply Z.pow_pos_nonneg|]; lia. }
  assert (Hq52 : q <= m' / 2 ^ 52).
  { rewrite Hq. apply Z.div_le_compat_l; [lia|]. split; [apply Z.pow_pos_nonneg; lia|].
    vm_compute. discriminate. }
  destruct (Zdigits2_div_pow2 m' 52 Hm'0 ltac:(lia)) as [Z0|Hd].
  - replace q with 0 by lia. cbn [Zdigits2]. lia.
  - pose proof (Zdigits2_mono q (m' / 2 ^ 52) ltac:(lia)). lia.
Qed.

(** The quotient [float64(ns) / float64(1e6)] of a [time.Duration]
    ([int64] nanoseconds) is a zero or a finite float. *)
Lemma quotient_finite ns : - 2 ^ 63 <= ns < 2 ^ 63 ->
  (exists s, div64 (float64_of_Z ns) (float64_of_Z 1000000) = S754_zero s) \/
  exists s m e, div64 (float64_of_Z ns) (float64_of_Z 1000000) = S754_finite s m e.
Proof.
  intros Hn. rewrite float64_1e6. unfold div64.
  destruct (float64_of_Z_ok ns ltac:(lia)) as [[s E]|(s & m & e & E & B)]; rewrite E.
  - left. exists (xorb s false). reflexivity.
  - cbn [SFdiv]. pose proof (div_core_bound m e B) as H.
    destruct (SFdiv_core_binary 53 1024 (Zpos m) e (Zpos 8589934592000000) (-33)) as [[q e'] l].
    destruct H as [Hq HD].
    destruct (round_aux_ok (xorb s false) q e' l Hq HD) as [Z0|(m' & e'' & E' & _)].
    + left. eexists. exact Z0.
    + right. do 3 eexists. exact E'.
Qed.

Lemma digitByte_isDigit d : 0 <= d <= 9 -> isDigit (digitByte d) = true.
Proof.
  intros Hd. unfold isDigit, digitByte. rewrite b2z_z2b, Z.mod_small by lia.
  apply andb_true_intro; split; apply Z.leb_le; lia.
Qed.

Lemma decDigits_ok fuel n : 0 <= n ->
  decDigits (S fuel) n <> [] /\ Forall (fun b => isDigit b = true) (decDigits (S fuel) n).
Proof.
  revert n. induction fuel as [|f IH]; intros n Hn; cbn [decDigits].
  - destruct (n <? 10) eqn:E.
    + apply Z.ltb_lt in E. split; [discriminate|]. constructor; [apply digitByte_isDigit; lia | constructor].
    + split; [intros Hc; apply app_eq_nil in Hc; destruct Hc as [_ Hc]; discriminate Hc|].
      apply Forall_app; split; [constructor|].
      constructor; [apply digitByte_isDigit; pose proof (Z.mod_pos_bound n 10); lia | constructor].
  - destruct (n <? 10) eqn:E.
    + apply Z.ltb_lt in E. split; [discriminate|]. constructor; [apply digitByte_isDigit; lia | constructor].
    + destruct (IH (n / 10) ltac:(apply Z.div_pos; lia)) as [_ Hall].
      split; [intros Hc; apply app_eq_nil in Hc; destruct Hc as [_ Hc]; discriminate Hc|].
      apply Forall_app; split; [exact Hall|].
      constructor; [apply digitByte_isDigit; pose proof (Z.mod_pos_bound n 10); lia | constructor].
Qed.

Lemma decimal_ok n : 0 <= n -> decimal n <> [] /\ Forall (fun b => isDigit b = true) (decimal n).
Proof. intros Hn. apply decDigits_ok, Hn. Qed.

Lemma roundHalfEven_nonneg a b : 0 <= a -> 0 < b -> 0 <= roundHalfEven a b.
Proof.
  intros Ha Hb. unfold roundHalfEven. pose proof (Z.div_pos a b Ha Hb).
  repeat match goal with |- context [if ?c then _ else _] => destruct c end; lia.
Qed.

Lemma fixed3_parts m e : 0 < m -> exists ip fp,
    fixed3 m e = ip ++ [Byte.x2e] ++ fp /\ ip <> [] /\ List.length fp = 3%nat /\
    Forall (fun b => isDigit b = true) ip /\ Forall (fun b => isDigit b = true) fp.
Proof.
  intros Hm. unfold fixed3.
  set (n := if 0 <=? e then m * 2 ^ e * 1000 else roundHalfEven (m * 1000) (2 ^ (- e))).
  assert (Hn : 0 <= n).
  { unfold n. destruct (Z.leb_spec 0 e).
    - pose proof (Z.pow_nonneg 2 e ltac:(lia)). nia.
    - apply roundHalfEven_nonneg; [lia | apply Z.pow_pos_nonneg; lia]. }
  destruct (decimal_ok (n / 1000) ltac:(apply Z.div_pos; lia)) as [Hne Hall].
  pose proof (Z.mod_pos_bound n 1000 ltac:(lia)) as Hf.
  exists (decimal (n / 1000)), [digitByte (n mod 1000 / 100); digitByte (n mod 1000 / 10 mod 10);
                                digitByte (n mod 1000 mod 10)].
  split; [reflexivity|]. split; [exact Hne|]. split; [reflexivity|]. split; [exact Hall|].
  pose proof (Z.mod_pos_bound (n mod 1000 / 10) 10 ltac:(lia)).
  pose proof (Z.mod_pos_bound (n mod 1000) 10 ltac:(lia)).
  assert (n mod 1000 / 100 < 10) by (apply Z.div_lt_upper_bound; lia).
  assert (0 <= n mod 1000 / 100) by (apply Z.div_pos; lia).
  repeat constructor; apply digitByte_isDigit; lia.
Qed.

Lemma sprintf3f_shape x :
  (exists s, x = S754_zero s) \/ (exists s m e, x = S754_finite s m e) ->
  Fixed3Shape (sprintf3f x).
Proof.
  intros [[s ->]|(s & m & e & ->)]; cbn [sprintf3f].
  - exists s, (s2b "0"), (s2b "000"). split; [destruct s; reflexivity|].
    split; [discriminate|]. split; [reflexivity|]. split; repeat constructor.
  - destruct (fixed3_parts (Zpos m) e ltac:(lia)) as (ip & fp & E & H).
    exists s, ip, fp. split; [rewrite E; reflexivity | exact H].
Qed.

Lemma buildCommonLogLine_eq P req ts status size delay :
  buildCommonLogLine P req ts status size delay =
  logHost req ++ s2b " - " ++ logUsername req ++ s2b " [" ++ formatCommonLogTime ts ++
  s2b "] " ++ [dquote] ++ Method req ++ s2b " " ++ appendQuoted P [] (logURI req) ++
  s2b " " ++ Proto req ++ [dquote] ++ s2b " " ++ Itoa status ++ s2b " " ++ Itoa size ++
  s2b " " ++ prettyDuration delay.
Proof.
  unfold buildCommonLogLine. cbv zeta. rewrite appendQuoted_app.
  rewrite app_nil_l, <- !app_assoc. reflexivity.
Qed.

Lemma Header_Get_absent h key : hasKey h key = false -> Header_Get h key = [].
Proof.
  unfold hasKey, Header_Get. induction h as [|kv h IH]; [reflexivity|].
  cbn [existsb find]. intros H. apply orb_false_iff in H as [H1 H2].
  rewrite H1. apply IH, H2.
Qed.

Lemma appendQuoted_nil P buf : appendQuoted P buf [] = buf.
Proof. reflexivity. Qed.

(** C1: the Combined-format line of the end-to-end example, whatever the
    Unicode tables, the sink's earlier contents and the request fields the
    line does not depend on (host, parsed URL apart from its user info). *)
Theorem C1_combined_example (isPrintTables : Z -> bool) (w scheme opaque path rawq host : bytes)
    (fq : bool) :
  writeCombinedLog isPrintTables w
    (mkRequest (s2b "GET") (mkURL scheme opaque None path rawq fq) (s2b "HTTP/1.1") 1
       [(s2b "User-Agent", [s2b "curl/7.51.0"])] host (s2b "[::1]:54321") (s2b "/"))
    (mkTime 2017 1 2 20 7 27 3600) 200 13 12000000 =
  w ++ s2b "::1 - - [02/Jan/2017:20:07:27 +0100] " ++ [dquote] ++ s2b "GET / HTTP/1.1" ++
  [dquote] ++ s2b " 200 13 12.000ms " ++ [dquote; dquote] ++ s2b " " ++ [dquote] ++
  s2b "curl/7.51.0" ++ [dquote; newline].
Proof. vm_compute. reflexivity. Qed.

(** C2: the Combined-format line is the Common-format line (what the
    Common writer writes before its newline) followed by the escaped
    referrer and user agent, each between double quotes; a request without
    a Referer (User-Agent) header gives the empty string, whose escaping
    is empty, so the line then ends in two empty quoted fields. *)
Theorem C2_combined_extends_common (isPrintTables : Z -> bool) (w : bytes) (req : Request)
    (ts : Time) (status size delay : Z) :
  writeCommonLog isPrintTables w req ts status size delay =
    w ++ buildCommonLogLine isPrintTables req ts status size delay ++ [newline] /\
  writeCombinedLog isPrintTables w req ts status size delay =
    w ++ buildCommonLogLine isPrintTables req ts status size delay ++
    s2b " " ++ [dquote] ++ appendQuoted isPrintTables [] (Referer req) ++ [dquote] ++
    s2b " " ++ [dquote] ++ appendQuoted isPrintTables [] (UserAgent req) ++ [dquote; newline] /\
  (hasKey (Header_ req) (s2b "Referer") = false -> Referer req = []) /\
  (hasKey (Header_ req) (s2b "User-Agent") = false -> UserAgent req = []) /\
  appendQuoted isPrintTables [] [] = [] /\
  (hasKey (Header_ req) (s2b "Referer") = false ->
   hasKey (Header_ req) (s2b "User-Agent") = false ->
   writeCombinedLog isPrintTables w req ts status size delay =
     w ++ buildCommonLogLine isPrintTables req ts status size delay ++
     s2b " " ++ [dquote; dquote] ++ s2b " " ++ [dquote; dquote; newline]).
Proof.
  assert (Hc : writeCombinedLog isPrintTables w req ts status size delay =
    w ++ buildCommonLogLine isPrintTables req ts status size delay ++
    s2b " " ++ [dquote] ++ appendQuoted isPrintTables [] (Referer req) ++ [dquote] ++
    s2b " " ++ [dquote] ++ appendQuoted isPrintTables [] (UserAgent req) ++ [dquote; newline]).
  { unfold writeCombinedLog. cbv zeta. rewrite (appendQuoted_app isPrintTables _ (Referer req)).
    rewrite (appendQuoted_app isPrintTables _ (UserAgent req)). rewrite <- !app_assoc. reflexivity. }
  split; [unfold writeCommonLog; cbv zeta; reflexivity|].
  split; [exact Hc|].
  split; [apply Header_Get_absent|]. split; [apply Header_Get_absent|].
  split; [reflexivity|]. intros H1 H2. rewrite Hc.
  unfold Referer, UserAgent. rewrite (Header_Get_absent _ _ H1), (Header_Get_absent _ _ H2).
  reflexivity.
Qed.

Lemma C2_witness :
  hasKey (Header_ connectReq) (s2b "Referer") = false /\
  hasKey (Header_ connectReq) (s2b "User-Agent") = false /\
  writeCombinedLog latin1Tables [] connectReq connectTs 200 0 0 =
    [] ++ buildCommonLogLine latin1Tables connectReq connectTs 200 0 0 ++
    s2b " " ++ [dquote; dquote] ++ s2b " " ++ [dquote; dquote; newline].
Proof.
  assert (H1 : hasKey (Header_ connectReq) (s2b "Referer") = false) by reflexivity.
  assert (H2 : hasKey (Header_ connectReq) (s2b "User-Agent") = false) by reflexivity.
  split; [exact H1|]. split; [exact H2|].
  exact (proj2 (proj2 (proj2 (proj2 (proj2
    (C2_combined_extends_common latin1Tables [] connectReq connectTs 200 0 0))))) H1 H2).
Defined.

(** C3 (counterexample): an HTTP/2 CONNECT request whose host field is
    empty: its target field is neither its host field nor its request-line
    URI but the request URI rebuilt from its parsed URL. *)
Lemma C3_counterexample :
  ProtoMajor connectReq = 2 /\ Method connectReq = s2b "CONNECT" /\ Host connectReq = [] /\
  RequestURI connectReq = s2b "/orig" /\ logURI connectReq = s2b "/from-url" /\
  writeCommonLog latin1Tables [] connectReq connectTs 200 0 0 =
    s2b "10.0.0.1 - - [02/Jan/2017:20:07:27 +0100] " ++ [dquote] ++
    s2b "CONNECT /from-url HTTP/2.0" ++ [dquote] ++ s2b " 200 0 0.000ms" ++ [newline].
Proof. vm_compute. repeat split. Qed.

(** C3 (amended): for an HTTP/2 CONNECT request the target field is the
    escaped host field when that field is non-empty, whatever the
    request-line URI and the parsed URL; when it is empty the target is the
    request URI rebuilt from the parsed URL ([URL.RequestURI()]). *)
Theorem C3_connect_target (isPrintTables : Z -> bool) (req : Request) (ts : Time)
    (status size delay : Z) :
  ProtoMajor req = 2 -> Method req = s2b "CONNECT" ->
  let target := if is_empty (Host req) then URL_RequestURI (URL_ req) else Host req in
  logURI req = target /\
  buildCommonLogLine isPrintTables req ts status size delay =
    logHost req ++ s2b " - " ++ logUsername req ++ s2b " [" ++ formatCommonLogTime ts ++
    s2b "] " ++ [dquote] ++ Method req ++ s2b " " ++ appendQuoted isPrintTables [] target ++
    s2b " " ++ Proto req ++ [dquote] ++ s2b " " ++ Itoa status ++ s2b " " ++ Itoa size ++
    s2b " " ++ prettyDuration delay.
Proof.
  intros HP HM target.
  assert (HU : logURI req = target).
  { unfold logURI, target. rewrite HP, HM. cbn [Z.eqb andb bytes_eqb Byte.eqb].
    reflexivity. }
  split; [exact HU|]. rewrite buildCommonLogLine_eq, HU. reflexivity.
Qed.

Lemma C3_witness :
  (ProtoMajor exConnectReq = 2 /\ Method exConnectReq = s2b "CONNECT") /\
  logURI exConnectReq = s2b "example.com:443".
Proof.
  assert (HP : ProtoMajor exConnectReq = 2) by reflexivity.
  assert (HM : Method exConnectReq = s2b "CONNECT") by reflexivity.
  split; [split; assumption|].
  exact (proj1 (C3_connect_target latin1Tables exConnectReq connectTs 200 0 0 HP HM)).
Defined.

(** C7: for every [time.Duration] (an [int64] of nanoseconds) the elapsed
    field is [%.3f] of the float64 quotient of the nanoseconds by 1e6
    followed by [ms]: an optional minus sign, a non-empty run of digits, a
    dot and exactly three digits, then [ms]; 12,000,000 ns gives
    [12.000ms] and 500,000 ns gives [0.500ms]. *)
Theorem C7_prettyDuration_format (ns : Z) : - 2 ^ 63 <= ns < 2 ^ 63 ->
  prettyDuration ns = sprintf3f (div64 (float64_of_Z ns) (float64_of_Z 1000000)) ++ s2b "ms" /\
  (exists (neg : bool) (ip fp : bytes),
     prettyDuration ns = (if neg then [Byte.x2d] else []) ++ ip ++ [Byte.x2e] ++ fp ++ s2b "ms" /\
     ip <> [] /\ List.length fp = 3%nat /\
     Forall (fun b => isDigit b = true) ip /\ Forall (fun b => isDigit b = true) fp) /\
  prettyDuration 12000000 = s2b "12.000ms" /\ prettyDuration 500000 = s2b "0.500ms".
Proof.
  intros Hn. split; [reflexivity|].
  split; [|split; vm_compute; reflexivity].
  destruct (sprintf3f_shape _ (quotient_finite ns Hn)) as (neg & ip & fp & E & H).
  exists neg, ip, fp. split; [|exact H].
  unfold prettyDuration. cbv zeta. rewrite E. rewrite <- !app_assoc. reflexivity.
Qed.

Lemma C7_witness :
  - 2 ^ 63 <= 12000000 < 2 ^ 63 /\
  prettyDuration 12000000 =
    sprintf3f (div64 (float64_of_Z 12000000) (float64_of_Z 1000000)) ++ s2b "ms".
Proof.
  assert (H : - 2 ^ 63 <= 12000000 < 2 ^ 63) by lia.
  split; [exact H | exact (proj1 (C7_prettyDuration_format 12000000 H))].
Defined.

(** * Further properties of the code *)

(** ** appendQuoted: bytes, UTF-8 and length *)


Lemma EncodeRune_high r : 128 <= r <= Utf8.MaxRune ->
  Forall (fun b => 128 <= b2z b) (Utf8.EncodeRune r).
Proof.
  intros Hr. unfold Utf8.EncodeRune, Utf8.encode3.
  rewrite (Z.mod_small r) by (change (2 ^ 32) with 4294967296; unfold Utf8.MaxRune in Hr; lia).
  destruct (r <=? Utf8.rune1Max) eqn:E1;
    [apply Z.leb_le in E1; unfold Utf8.rune1Max in E1; lia|].
  repeat match goal with |- context [if ?c then _ else _] => destruct c end;
    repeat constructor; rewrite b2z_z2b; apply lor_bit7; reflexivity.
Qed.

Ltac ascii_lit := unfold asciiPrintable; vm_compute; split; discriminate.

Lemma lowerhex_ascii : Forall asciiPrintable lowerhex.
Proof. repeat (apply Forall_cons; [ascii_lit|]); apply Forall_nil. Qed.

Lemma hexdig_ascii n : 0 <= n < 16 -> asciiPrintable (hexdig n).
Proof.
  intros Hn. unfold hexdig. apply (proj1 (Forall_forall _ _) lowerhex_ascii).
  apply nth_In. change (List.length lowerhex) with 16%nat. lia.
Qed.

Lemma land15_range x : 0 <= Z.land x 15 < 16.
Proof. change 15 with (Z.ones 4). rewrite Z.land_ones by lia. apply Z.mod_pos_bound. lia. Qed.

Lemma shiftr4_range b : 0 <= Z.shiftr (b2z b) 4 < 16.
Proof.
  pose proof (b2z_range b) as R.
  rewrite Z.shiftr_div_pow2 by lia. change (2 ^ 4) with 16. split; [apply Z.div_pos; lia|].
  apply Z.div_lt_upper_bound; lia.
Qed.

Ltac forall_ascii :=
  repeat (apply Forall_cons;
          [try first [ ascii_lit
                     | apply hexdig_ascii; first [apply land15_range | apply shiftr4_range] ]|]);
  try apply Forall_nil.

Lemma hexShifts_ascii r l : Forall asciiPrintable (hexShifts r l).
Proof.
  unfold hexShifts. apply Forall_map, Forall_forall. intros sh _. apply hexdig_ascii, land15_range.
Qed.

Lemma hexbyte_ascii b :
  Forall asciiPrintable [backslash; Byte.x78; hexdig (Z.shiftr (b2z b) 4); hexdig (Z.land (b2z b) 15)].
Proof.
  forall_ascii.
Qed.

(** Each piece of the loop is printable ASCII or the encoding of a non-ASCII
    scalar value, and it is between one and six times as long as the input
    it consumed. *)
Lemma quoteStep_class P s0 t :
  let '(p, w) := quoteStep P s0 (s0 :: t) in
  (1 <= w)%nat /\ (w <= List.length p <= 6 * w)%nat /\
  (Forall asciiPrintable p \/ exists r, Utf8.ValidRune r = true /\ 128 <= r /\ p = Utf8.EncodeRune r).
Proof.
  pose proof (quoteStep_spec P s0 t) as Hs.
  destruct (quoteStep P s0 (s0 :: t)) as [p w] eqn:Eq.
  destruct Hs as (Hw & _ & _ & Hlow). split; [lia|].
  unfold quoteStep in Eq. pose proof (b2z_range s0) as R0.
  destruct (Utf8.RuneSelf <=? b2z s0) eqn:HS.
  - destruct (Utf8.DecodeRuneInString (s0 :: t)) as [r w'] eqn:D. apply Z.leb_le in HS.
    injection Eq as <- <-.
    destruct (decode_spec s0 t r w' HS D) as [[-> ->] | (Hw2 & Hwl & Hv & H128 & Hall & Henc)].
    + change (quoteRune P s0 Utf8.RuneError 1) with
        [backslash; Byte.x78; hexdig (Z.shiftr (b2z s0) 4); hexdig (Z.land (b2z s0) 15)].
      split; [cbn; lia|]. left. apply hexbyte_ascii.
    + apply ValidRune_iff in Hv as Hv'. unfold Utf8.MaxRune in Hv'.
      assert (Hlen : List.length (firstn w' (s0 :: t)) = w') by (apply firstn_length_le; lia).
      pose proof (EncodeRune_len r) as HL4. rewrite Henc, Hlen in HL4.
      unfold quoteRune.
      replace (Nat.eqb w' 1 && (r =? Utf8.RuneError)) with false
        by (destruct w' as [|[|w']]; [lia | lia | reflexivity]).
      replace ((r =? 34) || (r =? 92)) with false by (symmetry; apply orb_false_iff; split; apply Z.eqb_neq; lia).
      destruct (IsPrint P r).
      { rewrite Henc, Hlen. split; [lia|]. right. exists r. rewrite Henc. auto. }
      repeat match goal with
      | |- context [if ?a =? ?b then _ else _] => replace (a =? b) with false by (symmetry; apply Z.eqb_neq; lia)
      | |- context [if ?a <? ?b then _ else _] => destruct (Z.ltb_spec a b); try (exfalso; unfold Utf8.MaxRune in *; lia)
      end.
      * split; [cbn; lia|]. left. apply Forall_app. split; [forall_ascii | apply hexShifts_ascii].
      * split; [cbn; lia|]. left. apply Forall_app. split; [forall_ascii | apply hexShifts_ascii].
  - apply Z.leb_gt in HS. unfold Utf8.RuneSelf in HS. injection Eq as <- <-.
    unfold quoteRune.
    replace (b2z s0 =? Utf8.RuneError) with false by (symmetry; apply Z.eqb_neq; unfold Utf8.RuneError; lia).
    rewrite andb_false_r.
    destruct ((b2z s0 =? 34) || (b2z s0 =? 92)) eqn:Eqb.
    { split; [cbn; lia|]. left. apply orb_true_iff in Eqb as [E|E]; apply Z.eqb_eq in E;
      rewrite E; forall_ascii. }
    destruct (IsPrint P (b2z s0)) eqn:HP.
    { unfold IsPrint in HP. rewrite (proj2 (Z.leb_le (b2z s0) 255)) in HP by lia.
      assert (Ha : 32 <= b2z s0 <= 126).
      { revert HP. repeat match goal with |- context [?a <=? ?b] => destruct (Z.leb_spec a b) end;
        cbn; intros; try discriminate; lia. }
      unfold Utf8.EncodeRune. rewrite (Z.mod_small (b2z s0)) by lia.
      rewrite (proj2 (Z.leb_le (b2z s0) Utf8.rune1Max)) by (unfold Utf8.rune1Max; lia).
      split; [cbn; lia|]. left. constructor; [|constructor]. unfold asciiPrintable.
      rewrite b2z_z2b, Z.mod_small; lia. }
    repeat match goal with
    | |- context [if ?c then _ else _] => destruct c eqn:?
    end;
    try (split; [cbn; lia|]; left;
         first [ forall_ascii
               | apply hexbyte_ascii
               | apply Forall_app; split; [forall_ascii | apply hexShifts_ascii] ]).
    all: exfalso; repeat match goal with H : (_ <? _) = _ |- _ => first [apply Z.ltb_lt in H | apply Z.ltb_ge in H] end;
         unfold Utf8.MaxRune in *; lia.
Qed.

Section LoopInduction.
Variable P : Z -> bool.
Variable Q : bytes -> bytes -> Prop.
Hypothesis Q_nil : Q [] [].
Hypothesis Q_app : forall a b c d, Q a b -> Q c d -> Q (a ++ c) (b ++ d).
Hypothesis Q_step : forall s0 t,
  let '(p, w) := quoteStep P s0 (s0 :: t) in Q (firstn w (s0 :: t)) p.

(** A relation between inputs and outputs that holds of every iteration of
    the loop and is preserved by concatenation holds of [appendQuoted]. *)
Lemma appendQuoted_ind s : Q s (appendQuoted P [] s).
Proof.
  unfold appendQuoted. remember (List.length s) as n eqn:Hn.
  assert (Hle : (List.length s <= n)%nat) by lia. clear Hn. revert s Hle.
  induction n as [|n IH]; intros s Hle.
  - destruct s; [exact Q_nil | cbn in Hle; lia].
  - destruct s as [|s0 t]; [exact Q_nil|]. cbn [appendQuoted_loop].
    pose proof (Q_step s0 t) as Hs. pose proof (quoteStep_width P s0 t) as Hw.
    destruct (quoteStep P s0 (s0 :: t)) as [p w]. cbn [snd] in Hw.
    rewrite loop_app, app_nil_l, <- (firstn_skipn w (s0 :: t)).
    rewrite (firstn_skipn w (s0 :: t)) at 2.
    apply Q_app; [exact Hs|]. apply IH. rewrite length_skipn. cbn [List.length] in *. lia.
Qed.

End LoopInduction.

Lemma ascii_as_runes p : Forall asciiPrintable p ->
  p = List.concat (map Utf8.EncodeRune (map b2z p)) /\
  Forall (fun r => Utf8.ValidRune r = true) (map b2z p).
Proof.
  induction 1 as [|b p Hb Hp [E V]]; [split; [reflexivity | constructor]|].
  unfold asciiPrintable in Hb.
  assert (Eb : Utf8.EncodeRune (b2z b) = [b]).
  { unfold Utf8.EncodeRune. rewrite (Z.mod_small (b2z b)) by lia.
    rewrite (proj2 (Z.leb_le (b2z b) Utf8.rune1Max)) by (unfold Utf8.rune1Max; lia).
    rewrite z2b_b2z. reflexivity. }
  cbn [map List.concat]. rewrite Eb. split.
  - cbn [app]. f_equal. exact E.
  - constructor; [|exact V]. apply ValidRune_iff. unfold Utf8.MaxRune, Utf8.surrogateMin. lia.
Qed.

Lemma aq_noctl P s : Forall (fun b => 32 <= b2z b /\ b2z b <> 127) (appendQuoted P [] s).
Proof.
  apply (appendQuoted_ind P (fun _ out => Forall (fun b => 32 <= b2z b /\ b2z b <> 127) out)).
  - constructor.
  - intros a b c d H1 H2. apply Forall_app. split; assumption.
  - intros s0 t. pose proof (quoteStep_class P s0 t) as H.
    destruct (quoteStep P s0 (s0 :: t)) as [p w].
    destruct H as (_ & _ & [Ha | (r & Hv & H128 & ->)]).
    + revert Ha. apply Forall_impl. unfold asciiPrintable. intros b Hb. lia.
    + apply ValidRune_iff in Hv. pose proof (EncodeRune_high r ltac:(lia)) as Hh.
      revert Hh. apply Forall_impl. intros b Hb. lia.
Qed.

Lemma aq_length P s : (List.length s <= List.length (appendQuoted P [] s) <= 6 * List.length s)%nat.
Proof.
  apply (appendQuoted_ind P (fun s out => (List.length s <= List.length out <= 6 * List.length s)%nat)).
  - cbn. lia.
  - intros a b c d H1 H2. rewrite !length_app. lia.
  - intros s0 t. pose proof (quoteStep_class P s0 t) as H.
    pose proof (quoteStep_width P s0 t) as Hw.
    destruct (quoteStep P s0 (s0 :: t)) as [p w]. cbn [snd] in Hw.
    rewrite firstn_length_le by lia. lia.
Qed.

(** [appendQuoted] only appends to [buf], and the bytes it appends are
    never ASCII control characters (below 0x20, or 0x7f). *)
Theorem appendQuoted_no_control_bytes (isPrintTables : Z -> bool) (buf s : bytes) :
  exists out, appendQuoted isPrintTables buf s = buf ++ out /\
    Forall (fun b => 32 <= b2z b /\ b2z b <> 127) out.
Proof.
  exists (appendQuoted isPrintTables [] s). split; [apply appendQuoted_app | apply aq_noctl].
Qed.

(** Whatever the input, the bytes [appendQuoted] appends are valid UTF-8:
    the encoding of a list of Unicode scalar values. *)
Theorem appendQuoted_valid_utf8 (isPrintTables : Z -> bool) (buf s : bytes) :
  exists rs, Forall (fun r => Utf8.ValidRune r = true) rs /\
    appendQuoted isPrintTables buf s = buf ++ List.concat (map Utf8.EncodeRune rs).
Proof.
  cut (exists rs, Forall (fun r => Utf8.ValidRune r = true) rs /\
        appendQuoted isPrintTables [] s = List.concat (map Utf8.EncodeRune rs)).
  { intros (rs & Hv & E). exists rs. split; [exact Hv|]. rewrite appendQuoted_app, E. reflexivity. }
  apply (appendQuoted_ind isPrintTables (fun _ out => exists rs, Forall (fun r => Utf8.ValidRune r = true) rs /\
            out = List.concat (map Utf8.EncodeRune rs))).
  - exists []. split; [constructor | reflexivity].
  - intros a b c d (r1 & V1 & E1) (r2 & V2 & E2). exists (r1 ++ r2).
    split; [apply Forall_app; split; assumption|]. rewrite map_app, concat_app, E1, E2. reflexivity.
  - intros s0 t. pose proof (quoteStep_class isPrintTables s0 t) as H.
    destruct (quoteStep isPrintTables s0 (s0 :: t)) as [p w].
    destruct H as (_ & _ & [Ha | (r & Hv & H128 & ->)]).
    + destruct (ascii_as_runes p Ha) as [E V]. exists (map b2z p). split; assumption.
    + exists [r]. split; [constructor; [exact Hv | constructor]|]. cbn. rewrite app_nil_r. reflexivity.
Qed.

(** Quoting never shortens the input and at most makes it six times as
    long; the byte 0x7f reaches the bound, as [\u007f]. *)
Theorem appendQuoted_length_bounds (isPrintTables : Z -> bool) (s : bytes) :
  (List.length s <= List.length (appendQuoted isPrintTables [] s) <= 6 * List.length s)%nat /\
  appendQuoted isPrintTables [] [Byte.x7f] = s2b "\u007f".
Proof. split; [apply aq_length | reflexivity]. Qed.

(** The iteration at the start of the encoding of a scalar value reads only
    that encoding. *)
Lemma quoteStep_EncodeRune P r rest : Utf8.ValidRune r = true ->
  exists s0 e, Utf8.EncodeRune r = s0 :: e /\
    quoteStep P s0 (Utf8.EncodeRune r ++ rest) = quoteStep P s0 (Utf8.EncodeRune r) /\
    snd (quoteStep P s0 (Utf8.EncodeRune r)) = List.length (Utf8.EncodeRune r).
Proof.
  intros HV. pose proof HV as HV'. apply ValidRune_iff in HV' as [Hr _].
  destruct (Z.lt_ge_cases r 128) as [Hlt|Hge].
  - assert (E : Utf8.EncodeRune r = [z2b r]).
    { unfold Utf8.EncodeRune. rewrite (Z.mod_small r) by (change (2 ^ 32) with 4294967296; lia).
      unfold Utf8.rune1Max. rewrite (proj2 (Z.leb_le r 127)) by lia. reflexivity. }
    exists (z2b r), []. split; [exact E|]. rewrite E. unfold quoteStep.
    rewrite b2z_z2b, (Z.mod_small r) by lia. unfold Utf8.RuneSelf.
    rewrite (proj2 (Z.leb_gt 128 r)) by lia. split; reflexivity.
  - destruct (EncodeRune_head r (conj Hge (proj2 Hr))) as (s0 & e & He & H0 & Hl).
    exists s0, e. split; [exact He|].
    assert (D2 : Utf8.DecodeRuneInString (Utf8.EncodeRune r) = (r, List.length (Utf8.EncodeRune r))).
    { rewrite <- (app_nil_r (Utf8.EncodeRune r)) at 1. apply encode_decode; assumption. }
    unfold quoteStep. unfold Utf8.RuneSelf. rewrite (proj2 (Z.leb_le 128 (b2z s0)) H0).
    rewrite (encode_decode r rest HV Hge), D2. split; reflexivity.
Qed.

(** Quoting a string that begins with whole UTF-8 encodings of scalar
    values is quoting those, then quoting the rest; cutting inside a
    multi-byte sequence (C3 A9) changes the result. *)
Theorem appendQuoted_concat (isPrintTables : Z -> bool) (rs : list Z) (buf t : bytes) :
  Forall (fun r => Utf8.ValidRune r = true) rs ->
  appendQuoted isPrintTables buf (List.concat (map Utf8.EncodeRune rs) ++ t) =
  appendQuoted isPrintTables (appendQuoted isPrintTables buf (List.concat (map Utf8.EncodeRune rs))) t /\
  appendQuoted isPrintTables [] ([Byte.xc3] ++ [Byte.xa9]) <>
  appendQuoted isPrintTables (appendQuoted isPrintTables [] [Byte.xc3]) [Byte.xa9].
Proof.
  intros Hv. split; [|vm_compute; discriminate].
  revert buf. induction Hv as [|r rs Hr Hrs IH]; intros buf; [reflexivity|].
  cbn [map List.concat]. rewrite <- app_assoc.
  destruct (quoteStep_EncodeRune isPrintTables r (List.concat (map Utf8.EncodeRune rs) ++ t) Hr)
    as (s0 & e & He & Hq & Hw).
  destruct (quoteStep_EncodeRune isPrintTables r (List.concat (map Utf8.EncodeRune rs)) Hr)
    as (s0' & e' & He' & Hq' & _).
  rewrite He in He'. injection He' as <- <-.
  rewrite He in Hq, Hq', Hw |- *. cbn [app] in Hq, Hq' |- *.
  rewrite !appendQuoted_step, Hq, Hq'.
  destruct (quoteStep isPrintTables s0 (s0 :: e)) as [p w]. cbn [snd] in Hw.
  change (s0 :: e ++ ?x) with ((s0 :: e) ++ x).
  rewrite !skipn_app. cbn [List.length] in *.
  replace (w - S (List.length e))%nat with 0%nat by lia. cbn [skipn].
  rewrite (skipn_all2 (s0 :: e)) by (cbn; lia).
  rewrite 2!app_nil_l.
  rewrite IH. reflexivity.
Qed.

(** ** Decimal numbers and the timestamp *)


Lemma digitsValue_acc l acc :
  fold_left (fun acc b => acc * 10 + (b2z b - 48)) l acc = acc * 10 ^ Z.of_nat (List.length l) + digitsValue l.
Proof.
  unfold digitsValue. revert acc. induction l as [|b l IH]; intros acc; cbn [fold_left List.length].
  - cbn. lia.
  - rewrite IH, (IH (0 * 10 + (b2z b - 48))). rewrite Nat2Z.inj_succ, Z.pow_succ_r by lia. ring.
Qed.

Lemma digitsValue_app a b :
  digitsValue (a ++ b) = digitsValue a * 10 ^ Z.of_nat (List.length b) + digitsValue b.
Proof. unfold digitsValue at 1. rewrite fold_left_app. apply digitsValue_acc. Qed.

Lemma digitsValue_zeros k l : digitsValue (repeat Byte.x30 k ++ l) = digitsValue l.
Proof.
  rewrite digitsValue_app. enough (digitsValue (repeat Byte.x30 k) = 0) by lia.
  induction k as [|k IH]; [reflexivity|].
  change (repeat Byte.x30 (S k)) with ([Byte.x30] ++ repeat Byte.x30 k).
  rewrite digitsValue_app, IH. reflexivity.
Qed.

Lemma digitByte_value d : 0 <= d <= 9 -> b2z (digitByte d) - 48 = d.
Proof. intros. unfold digitByte. rewrite b2z_z2b, Z.mod_small; lia. Qed.

Lemma decDigits_value fuel n : 0 <= n < 10 ^ Z.of_nat fuel ->
  digitsValue (decDigits fuel n) = n /\
  (Z.of_nat (List.length (decDigits fuel n)) <= Z.of_nat fuel) /\
  (nth 0 (decDigits fuel n) Byte.x00 = Byte.x30 -> n = 0).
Proof.
  revert n. induction fuel as [|f IH]; intros n Hn.
  - cbn in Hn. cbn. split; [lia|]. split; [lia | discriminate].
  - cbn [decDigits]. destruct (Z.ltb_spec n 10) as [Hlt|Hge].
    + split; [cbn; apply digitByte_value; lia|]. split; [cbn; lia|].
      cbn [nth]. intros E. apply (f_equal b2z) in E. pose proof (digitByte_value n ltac:(lia)).
      change (b2z Byte.x30) with 48 in E. lia.
    + rewrite Nat2Z.inj_succ, Z.pow_succ_r in Hn by lia.
      destruct (IH (n / 10)) as (IHv & IHl & IHz).
      { split; [apply Z.div_pos; lia | apply Z.div_lt_upper_bound; lia]. }
      pose proof (Z.mod_pos_bound n 10 ltac:(lia)).
      split; [|split].
      * rewrite digitsValue_app, IHv. cbn [List.length]. cbn. rewrite digitByte_value by lia.
        pose proof (Z.div_mod n 10). lia.
      * rewrite length_app. cbn [List.length]. lia.
      * destruct (decDigits f (n / 10)) as [|d ds] eqn:Ed.
        -- cbn in IHv. pose proof (Z.div_mod n 10). lia.
        -- cbn [app nth]. intros E. specialize (IHz E). exfalso.
           assert (10 <= n) by lia. pose proof (Z.div_le_mono 10 n 10 ltac:(lia) H0).
           rewrite Z.div_same in H1 by lia. lia.
Qed.

Lemma log2_fuel n : 0 <= n -> n < 10 ^ Z.of_nat (S (Z.to_nat (Z.log2 n))).
Proof.
  intros Hn. rewrite Nat2Z.inj_succ, Z2Nat.id by apply Z.log2_nonneg.
  destruct (Z.eq_dec n 0) as [->|Hn0]; [cbn; lia|].
  destruct (Z.log2_spec n ltac:(lia)) as [_ H].
  rewrite <- Z.add_1_r. apply (Z.lt_le_trans _ _ _ H).
  apply Z.pow_le_mono_l. split; [lia | lia].
Qed.

Lemma decimal_value n : 0 <= n ->
  digitsValue (decimal n) = n /\ (nth 0 (decimal n) Byte.x00 = Byte.x30 -> n = 0).
Proof.
  intros Hn. destruct (decDigits_value (S (Z.to_nat (Z.log2 n))) n) as (V & _ & Z0).
  { split; [exact Hn | apply log2_fuel, Hn]. }
  split; assumption.
Qed.

Lemma decDigits_length f n k : (1 <= k)%nat -> 0 <= n < 10 ^ Z.of_nat k ->
  (List.length (decDigits f n) <= k)%nat.
Proof.
  revert n k. induction f as [|f IH]; intros n k Hk Hn; cbn [decDigits List.length]; [lia|].
  destruct (Z.ltb_spec n 10) as [Hlt|Hge].
  - cbn [List.length]. lia.
  - destruct k as [|[|k]]; [lia | cbn in Hn; lia |].
    rewrite Nat2Z.inj_succ, Z.pow_succ_r in Hn by lia.
    rewrite length_app. cbn [List.length].
    enough (List.length (decDigits f (n / 10)) <= S k)%nat by lia.
    apply IH; [lia|]. split; [apply Z.div_pos; lia | apply Z.div_lt_upper_bound; lia].
Qed.

Lemma decimal_length n k : (1 <= k)%nat -> 0 <= n < 10 ^ Z.of_nat k ->
  (List.length (decimal n) <= k)%nat.
Proof. apply decDigits_length. Qed.

Lemma Itoa_parts (i : Z) :
  exists ds, Itoa i = (if i <? 0 then [Byte.x2d] else []) ++ ds /\
    ds <> [] /\ Forall (fun b => isDigit b = true) ds /\ digitsValue ds = Z.abs i /\
    (nth 0 ds Byte.x00 = Byte.x30 -> i = 0).
Proof.
  exists (decimal (Z.abs i)). unfold Itoa.
  destruct (decimal_ok (Z.abs i) ltac:(lia)) as [Hne Hd].
  destruct (decimal_value (Z.abs i) ltac:(lia)) as [V Z0].
  split; [destruct (Z.ltb_spec i 0); [rewrite Z.abs_neq by lia | rewrite Z.abs_eq by lia]; reflexivity|].
  repeat split; try assumption. intros E. specialize (Z0 E). lia.
Qed.

(** [strconv.Itoa] writes a minus sign for a negative number, then a
    non-empty run of decimal digits which reads back as the absolute value
    and has no leading zero unless the number is 0. *)
Theorem Itoa_readback (i : Z) :
  exists ds, Itoa i = (if i <? 0 then [Byte.x2d] else []) ++ ds /\
    ds <> [] /\ Forall (fun b => isDigit b = true) ds /\ digitsValue ds = Z.abs i /\
    (nth 0 ds Byte.x00 = Byte.x30 -> i = 0).
Proof. apply Itoa_parts. Qed.


Lemma digits_not_space l : Forall (fun b => isDigit b = true) l -> Forall (fun b => b <> space) l.
Proof.
  apply Forall_impl. intros b Hb E. subst b. discriminate Hb.
Qed.

Lemma Itoa_no_space i : Forall (fun b => b <> space) (Itoa i).
Proof.
  unfold Itoa. destruct (Z.ltb_spec i 0).
  - constructor; [discriminate|]. apply digits_not_space, decimal_ok. lia.
  - apply digits_not_space, decimal_ok. lia.
Qed.

Lemma split_at_space a b c d : Forall (fun x => x <> space) a -> Forall (fun x => x <> space) b ->
  a ++ space :: c = b ++ space :: d -> a = b /\ c = d.
Proof.
  intros Ha. revert b. induction Ha as [|x a Hx Ha IH]; intros b Hb E.
  - destruct Hb as [|y b Hy Hb]; cbn in E; [injection E; auto|].
    injection E as E _. congruence.
  - destruct Hb as [|y b Hy Hb]; cbn in E; [injection E as E _; congruence|].
    injection E as -> E. destruct (IH b Hb E) as [-> ->]. auto.
Qed.

Lemma Itoa_inj a b : Itoa a = Itoa b -> a = b.
Proof.
  intros E. destruct (Itoa_parts a) as (da & Ea & Na & Da & Va & _).
  destruct (Itoa_parts b) as (db & Eb & Nb & Db & Vb & _).
  rewrite Ea, Eb in E.
  destruct (Z.ltb_spec a 0), (Z.ltb_spec b 0); cbn [app] in E.
  - injection E as ->. lia.
  - destruct db as [|y db]; [congruence|]. injection E as Ey _. subst y.
    inversion Db; subst. discriminate.
  - destruct da as [|y da]; [congruence|]. injection E as Ey _. subst y.
    inversion Da; subst. discriminate.
  - subst da. lia.
Qed.

(** A log line determines the status and the size it shows (and the
    rendering of the delay): two lines for the same request and timestamp
    are equal only when their status and size are. *)
Theorem buildCommonLogLine_status_size_determined (isPrintTables : Z -> bool) (req : Request)
    (ts : Time) (status1 size1 delay1 status2 size2 delay2 : Z) :
  buildCommonLogLine isPrintTables req ts status1 size1 delay1 =
  buildCommonLogLine isPrintTables req ts status2 size2 delay2 ->
  status1 = status2 /\ size1 = size2 /\ prettyDuration delay1 = prettyDuration delay2.
Proof.
  intros E.
  set (X := logHost req ++ s2b " - " ++ logUsername req ++ s2b " [" ++ formatCommonLogTime ts ++
         s2b "] " ++ [dquote] ++ Method req ++ s2b " " ++ appendQuoted isPrintTables [] (logURI req) ++
         s2b " " ++ Proto req ++ [dquote] ++ s2b " ").
  assert (F : forall st sz d, buildCommonLogLine isPrintTables req ts st sz d =
                X ++ Itoa st ++ space :: Itoa sz ++ space :: prettyDuration d).
  { intros st sz d. rewrite buildCommonLogLine_eq. unfold X. rewrite <- !app_assoc. reflexivity. }
  rewrite !F in E. apply app_inv_head in E.
  destruct (split_at_space _ _ _ _ (Itoa_no_space status1) (Itoa_no_space status2) E) as [E1 E2].
  destruct (split_at_space _ _ _ _ (Itoa_no_space size1) (Itoa_no_space size2) E2) as [E3 E4].
  split; [apply Itoa_inj, E1|]. split; [apply Itoa_inj, E3 | exact E4].
Qed.


Lemma appendInt_nonneg b x k : 0 <= x -> appendInt b x k = b ++ padded k x.
Proof.
  intros Hx. unfold appendInt, padded. rewrite Z.abs_eq by exact Hx.
  rewrite (proj2 (Z.ltb_ge x 0)) by lia. reflexivity.
Qed.

Lemma padded_ok k x : (1 <= k)%nat -> 0 <= x < 10 ^ Z.of_nat k ->
  List.length (padded k x) = k /\ Forall (fun b => isDigit b = true) (padded k x) /\
  digitsValue (padded k x) = x.
Proof.
  intros Hk Hx. pose proof (decimal_length x k Hk Hx) as HL.
  destruct (decimal_ok x ltac:(lia)) as [_ Hd]. destruct (decimal_value x ltac:(lia)) as [V _].
  unfold padded. split; [|split].
  - rewrite length_app, repeat_length. lia.
  - apply Forall_app. split; [|exact Hd]. apply Forall_forall. intros b Hb.
    apply repeat_spec in Hb. subst b. reflexivity.
  - rewrite digitsValue_zeros. exact V.
Qed.

Lemma quot60_abs off : Z.abs (Z.quot off 60) = Z.abs off / 60.
Proof.
  rewrite <- Z.quot_div_nonneg by lia.
  replace (Z.quot (Z.abs off) 60) with (Z.quot (Z.abs off) (Z.abs 60)) by reflexivity.
  rewrite Z.quot_abs by lia. reflexivity.
Qed.

Lemma quot60_neg off : (Z.quot off 60 <? 0) = (off <=? -60).
Proof.
  destruct (Z.leb_spec off (-60)) as [H|H].
  - apply Z.ltb_lt. rewrite <- (Z.opp_involutive off), Z.quot_opp_l by lia.
    rewrite Z.quot_div_nonneg by lia.
    pose proof (Z.div_le_mono 60 (- off) 60 ltac:(lia) ltac:(lia)). rewrite Z.div_same in H0 by lia. lia.
  - apply Z.ltb_ge. destruct (Z.leb_spec 0 off).
    + apply Z.quot_pos; lia.
    + rewrite <- (Z.opp_involutive off), Z.quot_opp_l by lia.
      rewrite Z.quot_small by lia. lia.
Qed.

Lemma appendNumTZ_eq b off :
  appendNumTZ b off =
  b ++ [if off <=? -60 then Byte.x2d else Byte.x2b] ++
  padded 2 (Z.abs off / 3600) ++ padded 2 (Z.abs off / 60 mod 60).
Proof.
  unfold appendNumTZ. rewrite quot60_neg.
  assert (Hq : forall z, 0 <= z -> Z.abs z = z) by (intros; lia).
  replace (Z.abs off / 3600) with (Z.quot (Z.abs (Z.quot off 60)) 60).
  2:{ rewrite quot60_abs, Z.quot_div_nonneg by (try apply Z.div_pos; lia).
      rewrite Z.div_div by lia. reflexivity. }
  replace (Z.abs off / 60 mod 60) with (Z.rem (Z.abs (Z.quot off 60)) 60).
  2:{ rewrite quot60_abs, Z.rem_mod_nonneg by (try apply Z.div_pos; lia). reflexivity. }
  destruct (Z.leb_spec off (-60)) as [H|H].
  - assert (Hn : Z.quot off 60 < 0) by (apply Z.ltb_lt; rewrite quot60_neg; apply Z.leb_le; exact H).
    rewrite Z.abs_neq by lia.
    rewrite appendInt_nonneg, appendInt_nonneg; [rewrite <- !app_assoc; reflexivity | |];
      first [apply Z.rem_nonneg | apply Z.quot_pos]; lia.
  - assert (Hn : 0 <= Z.quot off 60).
    { pose proof (quot60_neg off) as Q. rewrite (proj2 (Z.leb_gt off (-60)) ltac:(lia)) in Q.
      apply Z.ltb_ge in Q. exact Q. }
    rewrite Z.abs_eq by lia.
    rewrite appendInt_nonneg, appendInt_nonneg; [rewrite <- !app_assoc; reflexivity | |];
      first [apply Z.rem_nonneg | apply Z.quot_pos]; lia.
Qed.

Lemma month_name_length k : List.length (s2b (nth k shortMonthNames "???"%string)) = 3%nat.
Proof. do 12 (destruct k as [|k]; [reflexivity|]). destruct k; reflexivity. Qed.

(** The timestamp of a log line, for a date of years 0 to 9999 and an offset
    of less than 100 hours: two-digit day, month name, four-digit year,
    two-digit hour, minute and second, a sign and four digits of offset,
    26 bytes in all; each number reads back as the field it shows. An offset
    of less than a minute west of UTC is shown as [+0000]. *)
Theorem formatCommonLogTime_layout (t : Time) :
  1 <= day t <= 31 -> 1 <= month t <= 12 -> 0 <= year t <= 9999 ->
  0 <= hour t <= 23 -> 0 <= minute t <= 59 -> 0 <= second t <= 59 ->
  Z.abs (offset t) < 360000 ->
  exists dd yyyy hh mi ss zz,
    formatCommonLogTime t =
      dd ++ s2b "/" ++ s2b (nth (Z.to_nat (month t - 1)) shortMonthNames "???"%string) ++ s2b "/" ++
      yyyy ++ s2b ":" ++ hh ++ s2b ":" ++ mi ++ s2b ":" ++ ss ++ s2b " " ++
      [if offset t <=? -60 then Byte.x2d else Byte.x2b] ++ zz /\
    Forall (fun l => Forall (fun b => isDigit b = true) l) [dd; yyyy; hh; mi; ss; zz] /\
    map (@List.length byte) [dd; yyyy; hh; mi; ss; zz] = [2; 4; 2; 2; 2; 4]%nat /\
    map digitsValue [dd; yyyy; hh; mi; ss; zz] =
      [day t; year t; hour t; minute t; second t;
       Z.abs (offset t) / 3600 * 100 + Z.abs (offset t) / 60 mod 60] /\
    List.length (formatCommonLogTime t) = 26%nat.
Proof.
  intros Hd Hm Hy Hh Hmi Hs Ho.
  assert (Ho1 : 0 <= Z.abs (offset t) / 3600 < 10 ^ Z.of_nat 2).
  { split; [apply Z.div_pos; lia | apply Z.div_lt_upper_bound; cbn; lia]. }
  assert (Ho2 : 0 <= Z.abs (offset t) / 60 mod 60 < 10 ^ Z.of_nat 2).
  { pose proof (Z.mod_pos_bound (Z.abs (offset t) / 60) 60 ltac:(lia)). cbn. lia. }
  destruct (padded_ok 2 (day t) ltac:(lia) ltac:(cbn; lia)) as (L1 & D1 & V1).
  destruct (padded_ok 4 (year t) ltac:(lia) ltac:(cbn; lia)) as (L2 & D2 & V2).
  destruct (padded_ok 2 (hour t) ltac:(lia) ltac:(cbn; lia)) as (L3 & D3 & V3).
  destruct (padded_ok 2 (minute t) ltac:(lia) ltac:(cbn; lia)) as (L4 & D4 & V4).
  destruct (padded_ok 2 (second t) ltac:(lia) ltac:(cbn; lia)) as (L5 & D5 & V5).
  destruct (padded_ok 2 _ ltac:(lia) Ho1) as (L6 & D6 & V6).
  destruct (padded_ok 2 _ ltac:(lia) Ho2) as (L7 & D7 & V7).
  assert (E : formatCommonLogTime t =
      padded 2 (day t) ++ s2b "/" ++ s2b (nth (Z.to_nat (month t - 1)) shortMonthNames "???"%string) ++
      s2b "/" ++ padded 4 (year t) ++ s2b ":" ++ padded 2 (hour t) ++ s2b ":" ++
      padded 2 (minute t) ++ s2b ":" ++ padded 2 (second t) ++ s2b " " ++
      [if offset t <=? -60 then Byte.x2d else Byte.x2b] ++
      (padded 2 (Z.abs (offset t) / 3600) ++ padded 2 (Z.abs (offset t) / 60 mod 60))).
  { unfold formatCommonLogTime. cbv zeta. rewrite appendNumTZ_eq.
    rewrite !appendInt_nonneg by lia. rewrite <- !app_assoc. reflexivity. }
  exists (padded 2 (day t)), (padded 4 (year t)), (padded 2 (hour t)), (padded 2 (minute t)),
    (padded 2 (second t)), (padded 2 (Z.abs (offset t) / 3600) ++ padded 2 (Z.abs (offset t) / 60 mod 60)).
  split; [exact E|]. split.
  { repeat constructor; try assumption. apply Forall_app; split; assumption. }
  split.
  { cbn [map]. rewrite length_app, L1, L2, L3, L4, L5, L6, L7. reflexivity. }
  split.
  { cbn [map]. rewrite digitsValue_app, V1, V2, V3, V4, V5, V6, V7, L7. reflexivity. }
  rewrite E. rewrite !length_app, L1, L2, L3, L4, L5, L6, L7, month_name_length. reflexivity.
Qed.

(** ** Byte search *)

Lemma byte_eqb_spec a b : reflect (a = b) (Byte.eqb a b).
Proof. apply iff_reflect. split; [apply Byte.byte_dec_lb | apply Byte.byte_dec_bl]. Qed.

Lemma byte_eqb_refl a : Byte.eqb a a = true.
Proof. apply Byte.byte_dec_lb. reflexivity. Qed.

Lemma indexByte_absent s c : ~ In c s -> indexByte s c = -1.
Proof.
  induction s as [|b s IH]; intros H; [reflexivity|]. cbn [indexByte].
  destruct (byte_eqb_spec b c) as [->|Hne]; [exfalso; apply H; left; reflexivity|].
  rewrite IH by (intros Hi; apply H; right; exact Hi). reflexivity.
Qed.

Lemma indexByte_app s c r : ~ In c s -> indexByte (s ++ c :: r) c = Z.of_nat (List.length s).
Proof.
  induction s as [|b s IH]; intros H; cbn [indexByte app].
  - rewrite byte_eqb_refl. reflexivity.
  - destruct (byte_eqb_spec b c) as [->|Hne]; [exfalso; apply H; left; reflexivity|].
    rewrite IH by (intros Hi; apply H; right; exact Hi).
    cbn [List.length]. destruct (Z.ltb_spec (Z.of_nat (List.length s)) 0); lia.
Qed.

Lemma lastIndexByte_absent s c : ~ In c s -> lastIndexByte s c = -1.
Proof.
  induction s as [|b s IH]; intros H; [reflexivity|]. cbn [lastIndexByte].
  rewrite IH by (intros Hi; apply H; right; exact Hi).
  destruct (byte_eqb_spec b c) as [->|Hne]; [exfalso; apply H; left; reflexivity|]. reflexivity.
Qed.

Lemma lastIndexByte_app s c r : ~ In c r -> lastIndexByte (s ++ c :: r) c = Z.of_nat (List.length s).
Proof.
  intros Hr. induction s as [|b s IH]; cbn [lastIndexByte app].
  - rewrite lastIndexByte_absent by exact Hr. rewrite byte_eqb_refl. reflexivity.
  - rewrite IH. cbn [List.length]. destruct (Z.leb_spec 0 (Z.of_nat (List.length s))); lia.
Qed.

Lemma slice_app (a b : bytes) : slice (a ++ b) 0 (Z.of_nat (List.length a)) = a.
Proof.
  unfold slice. rewrite Z.sub_0_r, Nat2Z.id. cbn [skipn Z.to_nat].
  rewrite firstn_app, firstn_all, Nat.sub_diag. cbn. apply app_nil_r.
Qed.

Lemma sliceFrom_app (a b : bytes) n : n = Z.of_nat (List.length a) -> sliceFrom (a ++ b) n = b.
Proof. intros ->. unfold sliceFrom. rewrite Nat2Z.id. apply skipn_length_app. Qed.

Lemma not_in_app (c : byte) (a b : bytes) : ~ In c a -> ~ In c b -> ~ In c (a ++ b).
Proof. intros Ha Hb Hi. apply in_app_or in Hi as [H|H]; contradiction. Qed.


(** ** net.SplitHostPort *)

Lemma indexByte_spec (s : bytes) (c : byte) :
  (indexByte s c = -1 /\ ~ In c s) \/
  (exists a r, s = a ++ c :: r /\ ~ In c a /\ indexByte s c = Z.of_nat (List.length a)).
Proof.
  induction s as [|b s IH]; [left; split; [reflexivity | intros []]|].
  cbn [indexByte]. destruct (byte_eqb_spec b c) as [->|Hne].
  - right. exists [], s. split; [reflexivity|]. split; [intros []|reflexivity].
  - destruct IH as [[E Hn]|(a & r & -> & Ha & E)].
    + left. rewrite E. split; [reflexivity|].
      intros [->|Hi]; [apply Hne; reflexivity | contradiction].
    + right. exists (b :: a), r. split; [reflexivity|]. split.
      * intros [->|Hi]; [apply Hne; reflexivity | contradiction].
      * rewrite E. cbn [List.length]. destruct (Z.ltb_spec (Z.of_nat (List.length a)) 0); lia.
Qed.

Lemma lastIndexByte_spec (s : bytes) (c : byte) :
  (lastIndexByte s c = -1 /\ ~ In c s) \/
  (exists a r, s = a ++ c :: r /\ ~ In c r /\ lastIndexByte s c = Z.of_nat (List.length a)).
Proof.
  induction s as [|b s IH]; [left; split; [reflexivity | intros []]|].
  cbn [lastIndexByte]. destruct IH as [[E Hn]|(a & r & -> & Hr & E)].
  - rewrite E. change (0 <=? -1) with false; cbv iota.
    destruct (byte_eqb_spec b c) as [->|Hne].
    + right. exists [], s. split; [reflexivity|]. split; [exact Hn | reflexivity].
    + left. split; [reflexivity|]. intros [->|Hi]; [apply Hne; reflexivity | contradiction].
  - right. exists (b :: a), r. split; [reflexivity|]. split; [exact Hr|].
    rewrite E. cbn [List.length]. destruct (Z.leb_spec 0 (Z.of_nat (List.length a))); lia.
Qed.

Lemma indexByte_neg (s : bytes) (c : byte) : indexByte s c < 0 -> ~ In c s.
Proof.
  intros H. destruct (indexByte_spec s c) as [[_ Hn]|(a & r & _ & _ & E)]; [exact Hn | lia].
Qed.

Lemma app_cons_split (a b r s : bytes) (x y : byte) :
  a ++ x :: r = b ++ y :: s -> List.length a = S (List.length b) -> a = b ++ [y] /\ x :: r = s.
Proof.
  revert a. induction b as [|b0 b IH]; intros a E L.
  - destruct a as [|a0 [|a1 a]]; cbn in L; try discriminate L.
    cbn in E. injection E as -> <-. split; reflexivity.
  - destruct a as [|a0 a]; [discriminate L|]. cbn in E, L. injection E as -> E.
    destruct (IH a E) as [-> <-]; [lia|]. split; reflexivity.
Qed.

Lemma sliceFrom_eq (s a b : bytes) (n : Z) :
  s = a ++ b -> Z.to_nat n = List.length a -> sliceFrom s n = b.
Proof. intros -> L. unfold sliceFrom. rewrite L. apply skipn_length_app. Qed.

Lemma slice_eq (s a b c : bytes) (i j : Z) :
  s = a ++ b ++ c -> Z.to_nat i = List.length a -> Z.to_nat (j - i) = List.length b ->
  slice s i j = b.
Proof.
  intros -> Li Lj. unfold slice. rewrite Li, skipn_length_app, Lj.
  rewrite firstn_app, firstn_all, Nat.sub_diag. cbn. apply app_nil_r.
Qed.

Lemma lbrack_rbrack : lbrack <> rbrack.
Proof. discriminate. Qed.

Lemma SplitHostPort_sound (hp h p : bytes) :
  SplitHostPort hp = Some (h, p) ->
  ~ In colon p /\ ~ In lbrack p /\ ~ In rbrack p /\
  ((hp = h ++ colon :: p /\ ~ In colon h /\ ~ In lbrack h /\ ~ In rbrack h) \/
   (hp = lbrack :: h ++ rbrack :: colon :: p /\ ~ In lbrack h /\ ~ In rbrack h)).
Proof.
  unfold SplitHostPort. cbv zeta. intros H.
  destruct (lastIndexByte_spec hp colon) as [[E _]|(a & r & Ha & Hr & E)];
    rewrite E in H; [discriminate H|].
  destruct (Z.ltb_spec (Z.of_nat (List.length a)) 0); [lia|]. cbv iota in H.
  destruct (byte_eqb_spec (nth 0 hp Byte.x00) lbrack) as [Hb|Hb]; cbv iota in H.
  - destruct (indexByte_spec hp rbrack) as [[E2 _]|(b1 & r2 & Hb1 & Hnb & E2)];
      rewrite E2 in H; [discriminate H|].
    destruct (Z.ltb_spec (Z.of_nat (List.length b1)) 0); [lia|].
    destruct (Z.eqb_spec (Z.of_nat (List.length b1) + 1) (Z.of_nat (List.length hp)));
      cbv iota in H; [discriminate H|].
    destruct (Z.eqb_spec (Z.of_nat (List.length b1) + 1) (Z.of_nat (List.length a)));
      cbv iota in H; [|discriminate H].
    destruct (Z.leb_spec 0 (indexByte (sliceFrom hp 1) lbrack)) as [|N1]; cbv iota in H;
      [discriminate H|].
    destruct (Z.leb_spec 0 (indexByte (sliceFrom hp (Z.of_nat (List.length b1) + 1)) rbrack))
      as [|N2]; cbv iota in H; [discriminate H|].
    injection H as Eh Ep.
    destruct (app_cons_split a b1 r r2 colon rbrack) as [-> <-]; [congruence | lia |].
    clear Ha. subst hp. destruct b1 as [|l h'].
    { cbn in Hb. exfalso. apply lbrack_rbrack. symmetry. exact Hb. }
    cbn in Hb. subst l.
    rewrite (slice_eq _ [lbrack] h' (rbrack :: colon :: r)) in Eh;
      [| reflexivity | reflexivity | cbn [List.length]; lia].
    rewrite (sliceFrom_eq _ ((lbrack :: h') ++ [rbrack; colon]) r) in Ep;
      [| rewrite <- app_assoc; reflexivity | rewrite !length_app; cbn [List.length]; lia].
    rewrite (sliceFrom_eq _ [lbrack] (h' ++ rbrack :: colon :: r)) in N1;
      [| reflexivity | reflexivity].
    rewrite (sliceFrom_eq _ ((lbrack :: h') ++ [rbrack]) (colon :: r)) in N2;
      [| rewrite <- app_assoc; reflexivity | rewrite !length_app; cbn [List.length]; lia].
    subst h p. apply indexByte_neg in N1, N2.
    split; [exact Hr|]. split; [intros Hi; apply N1, in_or_app; right; right; right; exact Hi|].
    split; [intros Hi; apply N2; right; exact Hi|].
    right. split; [reflexivity|]. split.
    + intros Hi; apply N1, in_or_app; left; exact Hi.
    + intros Hi; apply Hnb; right; exact Hi.
  - rewrite (slice_eq _ [] a (colon :: r)) in H; [| exact Ha | reflexivity | lia].
    destruct (Z.leb_spec 0 (indexByte a colon)) as [|N0]; cbv iota in H; [discriminate H|].
    destruct (Z.leb_spec 0 (indexByte (sliceFrom hp 0) lbrack)) as [|N1]; cbv iota in H;
      [discriminate H|].
    destruct (Z.leb_spec 0 (indexByte (sliceFrom hp 0) rbrack)) as [|N2]; cbv iota in H;
      [discriminate H|].
    injection H as Eh Ep.
    rewrite (sliceFrom_eq _ (a ++ [colon]) r) in Ep;
      [| rewrite <- app_assoc; exact Ha | rewrite !length_app; cbn [List.length]; lia].
    rewrite (sliceFrom_eq _ [] hp) in N1, N2 by reflexivity.
    subst h p hp. apply indexByte_neg in N0, N1, N2.
    split; [exact Hr|].
    split; [intros Hi; apply N1, in_or_app; right; right; exact Hi|].
    split; [intros Hi; apply N2, in_or_app; right; right; exact Hi|].
    left. split; [reflexivity|]. split; [exact N0|]. split.
    + intros Hi; apply N1, in_or_app; left; exact Hi.
    + intros Hi; apply N2, in_or_app; left; exact Hi.
Qed.

Lemma in_cons_neq (c x : byte) (l : bytes) : c <> x -> ~ In c l -> ~ In c (x :: l).
Proof. intros H1 H2 [E|Hi]; [apply H1; symmetry; exact E | contradiction]. Qed.

Lemma SplitHostPort_complete_plain (h p : bytes) :
  ~ In colon h -> ~ In lbrack h -> ~ In rbrack h ->
  ~ In colon p -> ~ In lbrack p -> ~ In rbrack p ->
  SplitHostPort (h ++ colon :: p) = Some (h, p).
Proof.
  intros Hc Hl Hr Pc Pl Pr. unfold SplitHostPort. cbv zeta.
  rewrite lastIndexByte_app by exact Pc.
  destruct (Z.ltb_spec (Z.of_nat (List.length h)) 0); [lia|]. cbv iota.
  replace (Byte.eqb (nth 0 (h ++ colon :: p) Byte.x00) lbrack) with false.
  2:{ destruct h as [|b h]; [reflexivity|]. cbn [app nth].
      destruct (byte_eqb_spec b lbrack) as [->|]; [exfalso; apply Hl; left; reflexivity | reflexivity]. }
  cbv iota. rewrite slice_app, indexByte_absent by exact Hc.
  change (0 <=? -1) with false; cbv iota.
  rewrite (sliceFrom_eq _ [] (h ++ colon :: p)) by reflexivity.
  rewrite indexByte_absent by (apply not_in_app; [exact Hl | apply in_cons_neq; [discriminate | exact Pl]]).
  rewrite indexByte_absent by (apply not_in_app; [exact Hr | apply in_cons_neq; [discriminate | exact Pr]]).
  change (0 <=? -1) with false; cbv iota.
  rewrite (sliceFrom_eq _ (h ++ [colon]) p); [reflexivity | rewrite <- app_assoc; reflexivity |].
  rewrite length_app. cbn [List.length]. lia.
Qed.

Lemma SplitHostPort_complete_bracket (h p : bytes) :
  ~ In lbrack h -> ~ In rbrack h ->
  ~ In colon p -> ~ In lbrack p -> ~ In rbrack p ->
  SplitHostPort (lbrack :: h ++ rbrack :: colon :: p) = Some (h, p).
Proof.
  intros Hl Hr Pc Pl Pr. unfold SplitHostPort. cbv zeta.
  assert (E1 : lastIndexByte (lbrack :: h ++ rbrack :: colon :: p) colon
               = Z.of_nat (List.length h + 2)).
  { change (lbrack :: h ++ rbrack :: colon :: p) with ((lbrack :: h) ++ rbrack :: colon :: p).
    replace ((lbrack :: h) ++ rbrack :: colon :: p) with ((lbrack :: h ++ [rbrack]) ++ colon :: p)
      by (cbn [app]; rewrite <- app_assoc; reflexivity).
    rewrite lastIndexByte_app by exact Pc.
    cbn [List.length]. rewrite length_app. cbn [List.length]. f_equal. lia. }
  assert (E2 : indexByte (lbrack :: h ++ rbrack :: colon :: p) rbrack
               = Z.of_nat (List.length h + 1)).
  { change (lbrack :: h ++ rbrack :: colon :: p) with ((lbrack :: h) ++ rbrack :: colon :: p).
    rewrite indexByte_app by (apply in_cons_neq; [discriminate | exact Hr]).
    cbn [List.length]. f_equal. lia. }
  rewrite E1. destruct (Z.ltb_spec (Z.of_nat (List.length h + 2)) 0); [lia|]. cbv iota.
  change (nth 0 (lbrack :: h ++ rbrack :: colon :: p) Byte.x00) with lbrack.
  rewrite byte_eqb_refl. cbv iota. rewrite E2.
  destruct (Z.ltb_spec (Z.of_nat (List.length h + 1)) 0); [lia|]. cbv iota.
  destruct (Z.eqb_spec (Z.of_nat (List.length h + 1) + 1)
              (Z.of_nat (List.length (lbrack :: h ++ rbrack :: colon :: p)))) as [L|_].
  { cbn [List.length] in L. rewrite length_app in L. cbn [List.length] in L. lia. }
  cbv iota.
  destruct (Z.eqb_spec (Z.of_nat (List.length h + 1) + 1) (Z.of_nat (List.length h + 2)));
    [|lia]. cbv iota.
  rewrite (sliceFrom_eq _ [lbrack] (h ++ rbrack :: colon :: p)) by reflexivity.
  rewrite indexByte_absent
    by (apply not_in_app; [exact Hl | apply in_cons_neq; [discriminate|];
        apply in_cons_neq; [discriminate | exact Pl]]).
  change (0 <=? -1) with false; cbv iota.
  rewrite (sliceFrom_eq _ ((lbrack :: h) ++ [rbrack]) (colon :: p));
    [| rewrite <- app_assoc; reflexivity | rewrite length_app; cbn [List.length]; lia].
  rewrite indexByte_absent by (apply in_cons_neq; [discriminate | exact Pr]).
  change (0 <=? -1) with false; cbv iota.
  rewrite (slice_eq _ [lbrack] h (rbrack :: colon :: p)); [| reflexivity | reflexivity | lia].
  rewrite (sliceFrom_eq _ ((lbrack :: h) ++ [rbrack; colon]) p);
    [reflexivity | rewrite <- app_assoc; reflexivity | rewrite length_app; cbn [List.length]; lia].
Qed.

(** [net.SplitHostPort] accepts exactly the addresses [host:port] with no
    colon or bracket in [host], and [[host]:port] with no bracket in [host],
    where [port] has no colon and no bracket; it returns that host and port. *)
Theorem SplitHostPort_iff (hp h p : bytes) :
  SplitHostPort hp = Some (h, p) <->
  ~ In colon p /\ ~ In lbrack p /\ ~ In rbrack p /\
  ((hp = h ++ colon :: p /\ ~ In colon h /\ ~ In lbrack h /\ ~ In rbrack h) \/
   (hp = lbrack :: h ++ rbrack :: colon :: p /\ ~ In lbrack h /\ ~ In rbrack h)).
Proof.
  split; [apply SplitHostPort_sound|].
  intros (Pc & Pl & Pr & [(-> & Hc & Hl & Hr)|(-> & Hl & Hr)]).
  - apply SplitHostPort_complete_plain; assumption.
  - apply SplitHostPort_complete_bracket; assumption.
Qed.

(** ** Bytes of the generated fields; newlines *)



Ltac plain_lit :=
  lazymatch goal with |- Forall _ ?l => let l' := eval vm_compute in l in change l with l' end;
  repeat (apply Forall_cons; [split; [discriminate | reflexivity]|]); apply Forall_nil.

Lemma digit_plain b : isDigit b = true -> plainByte b.
Proof.
  intros H. split.
  - intros ->. vm_compute in H. discriminate H.
  - unfold isQB. destruct (byte_eqb_spec b dquote) as [->|_]; [vm_compute in H; discriminate H|].
    destruct (byte_eqb_spec b backslash) as [->|_]; [vm_compute in H; discriminate H|reflexivity].
Qed.

Lemma digits_plain l : Forall (fun b => isDigit b = true) l -> Forall plainByte l.
Proof. apply Forall_impl, digit_plain. Qed.

Lemma repeat_zero_plain k : Forall plainByte (repeat Byte.x30 k).
Proof.
  apply Forall_forall. intros y Hy. apply repeat_spec in Hy. subst y. split; [discriminate | reflexivity].
Qed.

Lemma decimal_plain n : 0 <= n -> Forall plainByte (decimal n).
Proof. intros Hn. apply digits_plain, (decimal_ok n Hn). Qed.

Lemma Itoa_plain i : Forall plainByte (Itoa i).
Proof.
  unfold Itoa. destruct (Z.ltb_spec i 0).
  - constructor; [split; [discriminate | reflexivity]|]. apply decimal_plain. lia.
  - apply decimal_plain. lia.
Qed.

Lemma appendInt_plain b x k : Forall plainByte b -> Forall plainByte (appendInt b x k).
Proof.
  intros Hb. unfold appendInt. cbv zeta. apply Forall_app. split; [exact Hb|].
  apply Forall_app. split; [destruct (x <? 0); plain_lit|].
  apply Forall_app. split; [apply repeat_zero_plain | apply decimal_plain; lia].
Qed.

Lemma month_plain k : Forall plainByte (s2b (nth k shortMonthNames "???"%string)).
Proof.
  destruct (nth_in_or_default k shortMonthNames "???"%string) as [Hin | ->]; [|plain_lit].
  revert Hin. generalize (nth k shortMonthNames "???"%string). intros m Hin.
  repeat (destruct Hin as [<-|Hin]; [plain_lit|]). destruct Hin.
Qed.

Lemma format_plain t : Forall plainByte (formatCommonLogTime t).
Proof.
  unfold formatCommonLogTime, appendNumTZ. cbv zeta.
  destruct (Z.quot (offset t) 60 <? 0); cbv beta iota;
  repeat first [ apply appendInt_plain | apply Forall_app; split | apply month_plain | plain_lit ].
Qed.

Lemma sprintf3f_plain x : Forall plainByte (sprintf3f x).
Proof.
  destruct x as [s|s| |s m e]; cbn [sprintf3f].
  - apply Forall_app. split; [destruct s; plain_lit | plain_lit].
  - destruct s; plain_lit.
  - plain_lit.
  - apply Forall_app. split; [destruct s; plain_lit|].
    destruct (fixed3_parts (Zpos m) e ltac:(lia)) as (ip & fp & -> & _ & _ & Hi & Hf).
    apply Forall_app. split; [apply digits_plain, Hi|].
    apply Forall_app. split; [plain_lit | apply digits_plain, Hf].
Qed.

Lemma prettyDuration_plain ns : Forall plainByte (prettyDuration ns).
Proof.
  unfold prettyDuration. cbv zeta. apply Forall_app. split; [apply sprintf3f_plain | plain_lit].
Qed.


Lemma aq_no_newline P s : Forall (fun b => b <> newline) (appendQuoted P [] s).
Proof.
  generalize (aq_noctl P s). apply Forall_impl. intros b [Hb _] ->. vm_compute in Hb. apply Hb. reflexivity.
Qed.

Lemma countByte_app c a b : countByte c (a ++ b) = (countByte c a + countByte c b)%nat.
Proof. unfold countByte. rewrite filter_app, length_app. reflexivity. Qed.

Lemma countByte_absent c l : Forall (fun b => b <> c) l -> countByte c l = 0%nat.
Proof.
  unfold countByte. induction 1 as [|b l Hb Hl IH]; [reflexivity|]. cbn [filter].
  destruct (byte_eqb_spec b c); [contradiction | exact IH].
Qed.

Lemma plain_no_newline l : Forall plainByte l -> countByte newline l = 0%nat.
Proof. intros H. apply countByte_absent. revert H. apply Forall_impl. intros b [H _]. exact H. Qed.

Lemma plain_NoQB l : Forall plainByte l -> NoQB l.
Proof. unfold NoQB. apply Forall_impl. intros b [_ H]. exact H. Qed.

Ltac count_lits :=
  repeat match goal with
  | |- context [countByte newline (s2b ?s)] =>
      let v := eval vm_compute in (countByte newline (s2b s)) in
      change (countByte newline (s2b s)) with v
  | |- context [countByte newline (?b :: ?t)] =>
      let v := eval vm_compute in (countByte newline (b :: t)) in
      change (countByte newline (b :: t)) with v
  end.

(** Each writer appends a line that ends with its own newline: the bytes
    before it hold no newline besides those of the host, the user name, the
    method and the protocol; the quoted fields never hold one. *)
Theorem writeLog_newlines (isPrintTables : Z -> bool) (w : bytes) (req : Request) (ts : Time)
    (status size delay : Z) :
  let fields := (countByte newline (logHost req) + countByte newline (logUsername req) +
                 countByte newline (Method req) + countByte newline (Proto req))%nat in
  exists line1 line2,
    writeCommonLog isPrintTables w req ts status size delay = w ++ line1 ++ [newline] /\
    countByte newline line1 = fields /\
    writeCombinedLog isPrintTables w req ts status size delay = w ++ line2 ++ [newline] /\
    countByte newline line2 = fields.
Proof.
  cbv zeta.
  exists (buildCommonLogLine isPrintTables req ts status size delay),
    (buildCommonLogLine isPrintTables req ts status size delay ++ s2b " " ++ [dquote] ++
     appendQuoted isPrintTables [] (Referer req) ++ [dquote] ++ s2b " " ++ [dquote] ++
     appendQuoted isPrintTables [] (UserAgent req) ++ [dquote]).
  split; [reflexivity|]. split.
  { rewrite buildCommonLogLine_eq, !countByte_app.
    rewrite (plain_no_newline _ (format_plain ts)), (plain_no_newline _ (Itoa_plain status)),
      (plain_no_newline _ (Itoa_plain size)), (plain_no_newline _ (prettyDuration_plain delay)),
      !(countByte_absent _ _ (aq_no_newline isPrintTables _)).
    count_lits. lia. }
  split.
  { unfold writeCombinedLog. cbv zeta.
    rewrite (appendQuoted_app isPrintTables (_ ++ s2b " " ++ [dquote]) (Referer req)).
    rewrite (appendQuoted_app isPrintTables (_ ++ [dquote] ++ s2b " " ++ [dquote]) (UserAgent req)).
    rewrite <- !app_assoc. reflexivity. }
  rewrite buildCommonLogLine_eq, !countByte_app.
  rewrite (plain_no_newline _ (format_plain ts)), (plain_no_newline _ (Itoa_plain status)),
    (plain_no_newline _ (Itoa_plain size)), (plain_no_newline _ (prettyDuration_plain delay)),
    !(countByte_absent _ _ (aq_no_newline isPrintTables _)).
  count_lits. lia.
Qed.

(** ** Bare double quotes *)

Lemma lex_aq P s r :
  lexEscapes (appendQuoted P [] s ++ r) = lexEscapes (appendQuoted P [] s) ++ lexEscapes r.
Proof.
  revert r.
  apply (appendQuoted_ind P (fun _ out => forall r, lexEscapes (out ++ r) = lexEscapes out ++ lexEscapes r)).
  - reflexivity.
  - intros a b c d H1 H2 r. rewrite <- app_assoc, (H1 (d ++ r)), (H2 r), (H1 d), app_assoc. reflexivity.
  - intros s0 t. pose proof (quoteStep_spec P s0 t) as H.
    destruct (quoteStep P s0 (s0 :: t)) as [p w]. destruct H as (_ & Hp & _).
    intros r. apply lex_piece, Hp.
Qed.

Lemma aq_good P s : GoodToks (lexEscapes (appendQuoted P [] s)).
Proof. apply (loop_lex P (List.length s) s). lia. Qed.

Lemma NoQB_app a b : NoQB a -> NoQB b -> NoQB (a ++ b).
Proof. intros Ha Hb. apply Forall_app. split; assumption. Qed.

Lemma GoodToks_app a b : GoodToks a -> GoodToks b -> GoodToks (a ++ b).
Proof. intros Ha Hb. apply Forall_app. split; assumption. Qed.

Lemma lex_dquote r : lexEscapes (dquote :: r) = Lit dquote :: lexEscapes r.
Proof. reflexivity. Qed.

Lemma lex_space r : lexEscapes (space :: r) = Lit space :: lexEscapes r.
Proof. reflexivity. Qed.

Lemma lex_newline : lexEscapes [newline] = [Lit newline].
Proof. reflexivity. Qed.

Ltac noqb_lit := unfold NoQB; vm_compute; repeat constructor.

Lemma NoQB_lit_space : NoQB (s2b " ").
Proof. constructor; [reflexivity | constructor]. Qed.

Lemma bareQuotes_app a b : bareQuotes (a ++ b) = (bareQuotes a + bareQuotes b)%nat.
Proof. unfold bareQuotes. rewrite filter_app, length_app. reflexivity. Qed.

Lemma bareQuotes_good ts : GoodToks ts -> bareQuotes ts = 0%nat.
Proof.
  unfold bareQuotes. induction 1 as [|t ts (_ & Hq & _) _ IH]; [reflexivity|].
  cbn [filter]. destruct t as [b|b|]; [|exact IH|exact IH].
  destruct (byte_eqb_spec b dquote) as [->|_]; [contradiction | exact IH].
Qed.

(** When the host, the user name, the method and the protocol have no double
    quote and no backslash, a reader that takes backslash escapes into
    account finds in a combined log line exactly six bare double quotes:
    around the request, the referer and the user agent, each of these three
    fields holding no bare double quote or backslash and no unfinished
    escape; in a common log line it finds the two around the request. *)
Theorem writeLog_quoted_fields (isPrintTables : Z -> bool) (req : Request) (ts : Time)
    (status size delay : Z) :
  NoQB (logHost req) -> NoQB (logUsername req) -> NoQB (Method req) -> NoQB (Proto req) ->
  exists A R B F U,
    NoQB A /\ NoQB B /\ GoodToks R /\ GoodToks F /\ GoodToks U /\
    R = map Lit (Method req ++ s2b " ") ++ lexEscapes (appendQuoted isPrintTables [] (logURI req)) ++
        map Lit (s2b " " ++ Proto req) /\
    F = lexEscapes (appendQuoted isPrintTables [] (Referer req)) /\
    U = lexEscapes (appendQuoted isPrintTables [] (UserAgent req)) /\
    lexEscapes (writeCommonLog isPrintTables [] req ts status size delay) =
      map Lit A ++ [Lit dquote] ++ R ++ [Lit dquote] ++ map Lit B ++ [Lit newline] /\
    lexEscapes (writeCombinedLog isPrintTables [] req ts status size delay) =
      map Lit A ++ [Lit dquote] ++ R ++ [Lit dquote] ++ map Lit B ++
      [Lit space; Lit dquote] ++ F ++ [Lit dquote; Lit space; Lit dquote] ++ U ++
      [Lit dquote; Lit newline] /\
    bareQuotes (lexEscapes (writeCommonLog isPrintTables [] req ts status size delay)) = 2%nat /\
    bareQuotes (lexEscapes (writeCombinedLog isPrintTables [] req ts status size delay)) = 6%nat.
Proof.
  intros Hh Hu Hm Hp.
  set (A := logHost req ++ s2b " - " ++ logUsername req ++ s2b " [" ++ formatCommonLogTime ts ++ s2b "] ").
  set (M := Method req ++ s2b " ").
  set (Q := appendQuoted isPrintTables [] (logURI req)).
  set (N := s2b " " ++ Proto req).
  set (B := s2b " " ++ Itoa status ++ s2b " " ++ Itoa size ++ s2b " " ++ prettyDuration delay).
  set (F := lexEscapes (appendQuoted isPrintTables [] (Referer req))).
  set (U := lexEscapes (appendQuoted isPrintTables [] (UserAgent req))).
  set (R := map Lit M ++ lexEscapes Q ++ map Lit N).
  assert (HA : NoQB A).
  { unfold A. apply NoQB_app; [exact Hh|]. apply NoQB_app; [noqb_lit|].
    apply NoQB_app; [exact Hu|]. apply NoQB_app; [noqb_lit|].
    apply NoQB_app; [apply plain_NoQB, format_plain | noqb_lit]. }
  assert (HM : NoQB M) by (apply NoQB_app; [exact Hm | apply NoQB_lit_space]).
  assert (HN : NoQB N) by (apply NoQB_app; [apply NoQB_lit_space | exact Hp]).
  assert (HB : NoQB B).
  { unfold B. apply NoQB_app; [noqb_lit|]. apply NoQB_app; [apply plain_NoQB, Itoa_plain|].
    apply NoQB_app; [noqb_lit|]. apply NoQB_app; [apply plain_NoQB, Itoa_plain|].
    apply NoQB_app; [noqb_lit | apply plain_NoQB, prettyDuration_plain]. }
  assert (HR : GoodToks R).
  { unfold R. apply GoodToks_app; [apply GoodToks_map_Lit, HM|]. apply GoodToks_app; [apply aq_good|].
    apply GoodToks_map_Lit, HN. }
  assert (HF : GoodToks F) by apply aq_good.
  assert (HU : GoodToks U) by apply aq_good.
  assert (EL : forall T, buildCommonLogLine isPrintTables req ts status size delay ++ T =
                         A ++ dquote :: M ++ Q ++ N ++ dquote :: B ++ T).
  { intros T. rewrite buildCommonLogLine_eq. unfold A, M, Q, N, B. rewrite <- !app_assoc. reflexivity. }
  assert (LX : forall T, lexEscapes (A ++ dquote :: M ++ Q ++ N ++ dquote :: B ++ T) =
      map Lit A ++ [Lit dquote] ++ R ++ [Lit dquote] ++ map Lit B ++ lexEscapes T).
  { intros T. rewrite lex_plain by exact HA. rewrite lex_dquote, lex_plain by exact HM.
    unfold R, Q. rewrite lex_aq, lex_plain by exact HN. rewrite lex_dquote, lex_plain by exact HB.
    rewrite <- !app_assoc. reflexivity. }
  assert (EC : lexEscapes (writeCommonLog isPrintTables [] req ts status size delay) =
      map Lit A ++ [Lit dquote] ++ R ++ [Lit dquote] ++ map Lit B ++ [Lit newline]).
  { unfold writeCommonLog. cbv zeta. rewrite app_nil_l, EL, LX, lex_newline. reflexivity. }
  assert (EB : lexEscapes (writeCombinedLog isPrintTables [] req ts status size delay) =
      map Lit A ++ [Lit dquote] ++ R ++ [Lit dquote] ++ map Lit B ++
      [Lit space; Lit dquote] ++ F ++ [Lit dquote; Lit space; Lit dquote] ++ U ++
      [Lit dquote; Lit newline]).
  { unfold writeCombinedLog. cbv zeta.
    rewrite (appendQuoted_app isPrintTables (_ ++ s2b " " ++ [dquote]) (Referer req)).
    rewrite (appendQuoted_app isPrintTables (_ ++ [dquote] ++ s2b " " ++ [dquote]) (UserAgent req)).
    rewrite app_nil_l, <- !app_assoc, EL, LX.
    assert (LT : forall X Y, lexEscapes (s2b " " ++ [dquote] ++ appendQuoted isPrintTables [] X ++
        [dquote] ++ s2b " " ++ [dquote] ++ appendQuoted isPrintTables [] Y ++ [dquote; newline]) =
      [Lit space; Lit dquote] ++ lexEscapes (appendQuoted isPrintTables [] X) ++
      [Lit dquote; Lit space; Lit dquote] ++ lexEscapes (appendQuoted isPrintTables [] Y) ++
      [Lit dquote; Lit newline]).
    { intros X Y. change (s2b " " ++ [dquote] ++ ?x) with (space :: dquote :: x).
      rewrite lex_space, lex_dquote, lex_aq.
      change ([dquote] ++ s2b " " ++ [dquote] ++ ?x) with (dquote :: space :: dquote :: x).
      rewrite lex_dquote, lex_space, lex_dquote, lex_aq. reflexivity. }
    rewrite LT. reflexivity. }
  exists A, R, B, F, U.
  do 8 (split; [assumption || reflexivity|]).
  split; [exact EC|]. split; [exact EB|].
  split; [rewrite EC | rewrite EB]; rewrite !bareQuotes_app;
    rewrite (bareQuotes_good _ (GoodToks_map_Lit _ HA)), (bareQuotes_good _ (GoodToks_map_Lit _ HB)),
      (bareQuotes_good _ HR); rewrite ?(bareQuotes_good _ HF), ?(bareQuotes_good _ HU); reflexivity.
Qed.

(** ** Request target, host and delay sign *)

Lemma URL_RequestURI_nonempty u : URL_RequestURI u <> [].
Proof.
  unfold URL_RequestURI. cbv zeta.
  assert (R : (if is_empty (Opaque u) then
                 if is_empty (EscapedPath u) then s2b "/" else EscapedPath u
               else if hasPrefix (Opaque u) (s2b "//") then Scheme u ++ s2b ":" ++ Opaque u
               else Opaque u) <> []).
  { destruct (Opaque u) as [|o os]; cbn [is_empty].
    - destruct (EscapedPath u); discriminate.
    - destruct (hasPrefix (o :: os) (s2b "//")); [|discriminate].
      destruct (Scheme u); discriminate. }
  destruct (ForceQuery u || negb (is_empty (RawQuery u))); [|exact R].
  intros E. apply R. apply app_eq_nil in E as [E _]. exact E.
Qed.


(** The request target the log line quotes is never empty: an empty
    [RequestURI] (or an empty [Host] for an HTTP/2 [CONNECT]) falls back to
    [URL.RequestURI()], which is at least [/], and quoting keeps it non-empty. *)
Theorem logURI_nonempty (isPrintTables : Z -> bool) (req : Request) :
  logURI req <> [] /\ appendQuoted isPrintTables [] (logURI req) <> [].
Proof.
  assert (H : logURI req <> []).
  { unfold logURI. cbv zeta.
    destruct (is_empty (if (ProtoMajor req =? 2) && bytes_eqb (Method req) (s2b "CONNECT")
                        then Host req else RequestURI req)) eqn:E.
    - apply URL_RequestURI_nonempty.
    - intros Z0. rewrite Z0 in E. discriminate E. }
  split; [exact H|]. intros E. apply H.
  pose proof (aq_length isPrintTables (logURI req)) as L. rewrite E in L. cbn in L.
  destruct (logURI req); [reflexivity | cbn in L; lia].
Qed.

(** A peer address without a colon (no port) is logged whole. *)
Theorem logHost_no_port (req : Request) :
  ~ In colon (RemoteAddr req) -> logHost req = RemoteAddr req.
Proof.
  intros H. unfold logHost, SplitHostPort. cbv zeta.
  rewrite lastIndexByte_absent by exact H. reflexivity.
Qed.

(** * Sign symmetry of the delay *)

Lemma round_aux_opp sx mx ex lx :
  binary_round_aux 53 1024 (negb sx) mx ex lx = SFopp (binary_round_aux 53 1024 sx mx ex lx).
Proof.
  unfold binary_round_aux.
  destruct (shr_fexp 53 1024 mx ex lx) as [mrs' e'].
  destruct (shr_fexp 53 1024 (round_nearest_even (shr_m mrs') (loc_of_shr_record mrs')) e' loc_Exact)
    as [mrs'' e''].
  destruct (shr_m mrs''); [reflexivity | | reflexivity].
  destruct (e'' <=? 1024 - 53); reflexivity.
Qed.

Lemma float64_of_Z_opp n : n <> 0 -> float64_of_Z (- n) = SFopp (float64_of_Z n).
Proof.
  intros Hn. unfold float64_of_Z, binary_normalize.
  destruct n as [|p|p]; [lia| |]; cbn [Z.opp]; unfold binary_round;
  destruct (shl_align p 0 (fexp 53 1024 (Zpos (digits2_pos p) + 0))) as [mz ez].
  - apply (round_aux_opp false).
  - replace true with (negb false) at 1 by reflexivity. rewrite round_aux_opp.
    destruct (binary_round_aux 53 1024 false (Zpos mz) ez loc_Exact) as [s|s| |s m e];
      cbn [SFopp]; rewrite ?negb_involutive; reflexivity.
Qed.

Lemma SFdiv_opp_l x sy my ey :
  SFdiv 53 1024 (SFopp x) (S754_finite sy my ey) = SFopp (SFdiv 53 1024 x (S754_finite sy my ey)).
Proof.
  destruct x as [sx|sx| |sx mx ex]; cbn [SFopp SFdiv]; try reflexivity; try (destruct sx, sy; reflexivity).
  destruct (SFdiv_core_binary 53 1024 (Zpos mx) ex (Zpos my) ey) as [[mz ez] lz].
  replace (xorb (negb sx) sy) with (negb (xorb sx sy)) by (destruct sx, sy; reflexivity).
  apply round_aux_opp.
Qed.

Lemma quotient_pos ns : 0 < ns < 2 ^ 63 ->
  div64 (float64_of_Z ns) (float64_of_Z 1000000) = S754_zero false \/
  exists m e, div64 (float64_of_Z ns) (float64_of_Z 1000000) = S754_finite false m e.
Proof.
  intros Hn. rewrite float64_1e6. unfold div64, float64_of_Z, binary_normalize.
  destruct ns as [|p|p]; [lia| | lia].
  assert (Hp : Zpos (digits2_pos p) <= 64)
    by (change (Zpos (digits2_pos p)) with (Zdigits2 (Zpos p)); apply Zdigits2_le; lia).
  destruct (binary_round_ok false p 0 ltac:(lia)) as [Z0|(m & e & E & B)]; rewrite ?Z0, ?E.
  - left. reflexivity.
  - cbn [SFdiv]. pose proof (div_core_bound m e ltac:(lia)) as H.
    destruct (SFdiv_core_binary 53 1024 (Zpos m) e (Zpos 8589934592000000) (-33)) as [[q e'] l].
    destruct H as [Hq HD].
    destruct (round_aux_ok (xorb false false) q e' l Hq HD) as [Z1|(m' & e'' & E' & _)].
    + left. exact Z1.
    + right. exists m', e''. exact E'.
Qed.

(** A negative delay prints as the positive one with a minus sign in front,
    and a zero delay prints without a sign, as [0.000ms]. *)
Theorem prettyDuration_opp (ns : Z) : 0 < ns < 2 ^ 63 ->
  prettyDuration (- ns) = [Byte.x2d] ++ prettyDuration ns /\
  prettyDuration 0 = s2b "0.000ms".
Proof.
  intros Hn. split; [|vm_compute; reflexivity].
  unfold prettyDuration. cbv zeta.
  rewrite float64_of_Z_opp by lia. rewrite float64_1e6 at 1. unfold div64 at 1.
  rewrite SFdiv_opp_l, <- float64_1e6. fold (div64 (float64_of_Z ns) (float64_of_Z 1000000)).
  destruct (quotient_pos ns Hn) as [E|(m & e & E)]; rewrite E; reflexivity.
Qed.

(** * Witnesses of the further properties *)

Lemma appendQuoted_concat_witness :
  Forall (fun r => Utf8.ValidRune r = true) [233; 65] /\
  appendQuoted latin1Tables [] (List.concat (map Utf8.EncodeRune [233; 65]) ++ [Byte.x0a]) =
  appendQuoted latin1Tables
    (appendQuoted latin1Tables [] (List.concat (map Utf8.EncodeRune [233; 65]))) [Byte.x0a].
Proof.
  assert (H : Forall (fun r => Utf8.ValidRune r = true) [233; 65])
    by (constructor; [reflexivity | constructor; [reflexivity | constructor]]).
  split; [exact H | exact (proj1 (appendQuoted_concat latin1Tables [233; 65] [] [Byte.x0a] H))].
Defined.

Lemma buildCommonLogLine_status_size_determined_witness :
  buildCommonLogLine latin1Tables connectReq connectTs 200 512 1500000 =
  buildCommonLogLine latin1Tables connectReq connectTs 200 512 1500000 /\
  (200 = 200 /\ 512 = 512 /\ prettyDuration 1500000 = prettyDuration 1500000).
Proof.
  assert (H : buildCommonLogLine latin1Tables connectReq connectTs 200 512 1500000 =
              buildCommonLogLine latin1Tables connectReq connectTs 200 512 1500000) by reflexivity.
  split; [exact H|].
  exact (buildCommonLogLine_status_size_determined latin1Tables connectReq connectTs
           200 512 1500000 200 512 1500000 H).
Defined.

Lemma formatCommonLogTime_layout_witness :
  (1 <= day connectTs <= 31 /\ 1 <= month connectTs <= 12 /\ 0 <= year connectTs <= 9999 /\
   0 <= hour connectTs <= 23 /\ 0 <= minute connectTs <= 59 /\ 0 <= second connectTs <= 59 /\
   Z.abs (offset connectTs) < 360000) /\
  List.length (formatCommonLogTime connectTs) = 26%nat.
Proof.
  assert (H1 : 1 <= day connectTs <= 31) by (cbn; lia).
  assert (H2 : 1 <= month connectTs <= 12) by (cbn; lia).
  assert (H3 : 0 <= year connectTs <= 9999) by (cbn; lia).
  assert (H4 : 0 <= hour connectTs <= 23) by (cbn; lia).
  assert (H5 : 0 <= minute connectTs <= 59) by (cbn; lia).
  assert (H6 : 0 <= second connectTs <= 59) by (cbn; lia).
  assert (H7 : Z.abs (offset connectTs) < 360000) by (cbn; lia).
  split; [exact (conj H1 (conj H2 (conj H3 (conj H4 (conj H5 (conj H6 H7))))))|].
  destruct (formatCommonLogTime_layout connectTs H1 H2 H3 H4 H5 H6 H7)
    as (dd & yyyy & hh & mi & ss & zz & _ & _ & _ & _ & L).
  exact L.
Defined.

Lemma logHost_no_port_witness :
  ~ In colon (RemoteAddr socketReq) /\ logHost socketReq = RemoteAddr socketReq.
Proof.
  assert (H : ~ In colon (RemoteAddr socketReq)) by (cbn; intros [E|[]]; discriminate E).
  split; [exact H | exact (logHost_no_port socketReq H)].
Defined.

Lemma writeLog_quoted_fields_witness :
  (NoQB (logHost connectReq) /\ NoQB (logUsername connectReq) /\ NoQB (Method connectReq) /\
   NoQB (Proto connectReq)) /\
  exists A R B, NoQB A /\ GoodToks R /\ NoQB B.
Proof.
  assert (H1 : NoQB (logHost connectReq)) by noqb_lit.
  assert (H2 : NoQB (logUsername connectReq)) by noqb_lit.
  assert (H3 : NoQB (Method connectReq)) by noqb_lit.
  assert (H4 : NoQB (Proto connectReq)) by noqb_lit.
  split; [exact (conj H1 (conj H2 (conj H3 H4)))|].
  destruct (writeLog_quoted_fields latin1Tables connectReq connectTs 200 512 1500000 H1 H2 H3 H4)
    as (A & R & B & F & U & HA & HB & HR & _).
  exists A, R, B. split; [exact HA|]. split; [exact HR | exact HB].
Defined.

Lemma prettyDuration_opp_witness :
  0 < 1500000 < 2 ^ 63 /\ prettyDuration (- 1500000) = [Byte.x2d] ++ prettyDuration 1500000.
Proof.
  assert (H : 0 < 1500000 < 2 ^ 63) by lia.
  split; [exact H | exact (proj1 (prettyDuration_opp 1500000 H))].
Defined.
